(** * Gradient utilities of OmniXAI's vision explainers

    A shallow embedding of [omnixai/explainers/vision/specific/utils.py]:
    the image rescaler [GradMixin._resize], the SmoothGrad engines
    [_smooth_grad_torch] and [_smooth_grad_tf], the dispatcher [smooth_grad]
    and the guided-backprop stub [_guided_bp_torch] with its two hooks.

    Python exceptions are values of [Py.exn] and a computation that may raise
    returns [Py.res].  NumPy arrays are a shape with row-major flat data.
    Scalar arithmetic is an interface ([Scalar]): the results hold for every
    implementation of it, IEEE floating point included; exact rationals are
    the instance used to run the definitions, and IEEE double precision
    ([Binary64]) the one used to run the hooks. *)

From Stdlib Require Import String.
From Stdlib Require Import List ZArith QArith Qcanon Bool Lia PeanoNat.
From Stdlib Require Import SpecFloat.
Import ListNotations.
Open Scope nat_scope.

(* ================================================================== *)
(** ** Python exceptions and results *)

Module Py.

Inductive exn : Type :=
| AssertionError (msg : string)
| ValueError (msg : string)
| IndexError
| TypeError
| ZeroDivisionError
| AxisError
| RuntimeError
| InvalidArgumentError.

Inductive res (A : Type) : Type :=
| Ok (a : A)
| Err (e : exn).

Arguments Ok {A} a.
Arguments Err {A} e.

Definition bind {A B : Type} (r : res A) (k : A -> res B) : res B :=
  match r with
  | Ok a => k a
  | Err e => Err e
  end.

Fixpoint mapM {A B : Type} (f : A -> res B) (l : list A) : res (list B) :=
  match l with
  | [] => Ok []
  | a :: l' =>
      bind (f a) (fun b => bind (mapM f l') (fun bs => Ok (b :: bs)))
  end.

End Py.

Import Py.

Declare Scope res_scope.
Delimit Scope res_scope with res.
Notation "x <- c ;; k" := (Py.bind c (fun x => k))
  (at level 100, c at next level, right associativity) : res_scope.
Open Scope res_scope.

(* ================================================================== *)
(** ** Scalars *)

(** The arithmetic the module asks of NumPy and of the two frameworks.
    [ltb] is the strict comparison behind [np.min], [np.max], [np.argmax],
    [activations > 0] and [torch.clamp]. *)
Class Scalar : Type := {
  num : Type;
  zero : num;                       (* the literals 0 and 0.0 *)
  one : num;                        (* the literal 1 *)
  eps : num;                        (* the literal 1e-8 *)
  add : num -> num -> num;
  sub : num -> num -> num;
  mul : num -> num -> num;
  div : num -> num -> num;
  ltb : num -> num -> bool;
  of_int : Z -> num;                (* a Python int used as a scalar *)
  astype_int : num -> num;          (* ndarray.astype(int) *)
  to_torch_dtype : num -> num;      (* dtype=torch.get_default_dtype() *)
  to_tf_float32 : num -> num        (* dtype=tf.float32 *)
}.

(** Exact arithmetic: laws of [mul] and [ltb] that hold for the rationals.
    IEEE floats have them up to the sign of zero, and on finite values only
    (0 * inf is NaN). *)
Class ExactScalar (SC : Scalar) : Prop := {
  mul_zero_l : forall x : num, mul zero x = zero;
  mul_zero_r : forall x : num, mul x zero = zero;
  mul_one_l : forall x : num, mul one x = x;
  ltb_antisym : forall x y : num, ltb x y = false -> ltb y x = false -> x = y
}.

(** The finite values: those that are neither an infinity nor a NaN.  Every
    rational is one. *)
Class Finiteness (SC : Scalar) : Type := {
  finite : num -> Prop
}.

(** A value that compares equal to zero ([x == 0] in Python).  Floating
    point has two of them, 0.0 and -0.0. *)
Definition null {SC : Scalar} {FN : Finiteness SC} (x : num) : Prop :=
  finite x /\ ltb x zero = false /\ ltb zero x = false.

(** What the guided-backprop mask asks of [mul] and [ltb], on finite values
    only.  IEEE arithmetic has these laws and so have the rationals. *)
Class FiniteArithmetic (SC : Scalar) {FN : Finiteness SC} : Prop := {
  null_zero : null zero;
  mul_one_finite : forall x : num, finite x -> mul one x = x;
  mul_null_finite : forall a x : num, null a -> finite x -> null (mul a x)
}.

(* ================================================================== *)
(** ** NumPy arrays *)

Module NumPy.

Record ndarray (A : Type) : Type := mk_ndarray {
  shape : list nat;
  data : list A      (* row-major *)
}.

Arguments mk_ndarray {A} shape data.
Arguments shape {A} n.
Arguments data {A} n.

Definition size_of (s : list nat) : nat := fold_right Nat.mul 1 s.

(** [a.shape[0]] *)
Definition shape0 (s : list nat) : res nat :=
  match s with
  | [] => Err IndexError
  | d :: _ => Ok d
  end.

Definition amap {A B : Type} (f : A -> B) (a : ndarray A) : ndarray B :=
  {| shape := shape a; data := map f (data a) |}.

(** [a.squeeze()]: every axis of length one is dropped. *)
Definition squeeze {A : Type} (a : ndarray A) : ndarray A :=
  {| shape := filter (fun d => negb (d =? 1)) (shape a); data := data a |}.

(** Multi-index of the flat position [k] in an array of shape [s], and back. *)
Fixpoint unravel (s : list nat) (k : nat) : list nat :=
  match s with
  | [] => []
  | _ :: rest => k / size_of rest :: unravel rest (k mod size_of rest)
  end.

Fixpoint ravel (s idx : list nat) : nat :=
  match s, idx with
  | _ :: rest, i :: idx' => i * size_of rest + ravel rest idx'
  | _, _ => 0
  end.

Fixpoint index_of (d : nat) (axes : list nat) : nat :=
  match axes with
  | [] => 0
  | a :: axes' => if a =? d then 0 else S (index_of d axes')
  end.

(** The elements of [l] at the positions [ks], in that order. *)
Definition lookup_all {A : Type} (l : list A) (ks : list nat) : list A :=
  flat_map (fun k => match nth_error l k with Some v => [v] | None => [] end) ks.

Definition slice {A : Type} (l : list A) (start len : nat) : list A :=
  firstn len (skipn start l).

(** Axis permutation: axis [j] of the result is axis [axes[j]] of [a]. *)
Definition transpose_axes {A : Type} (axes : list nat) (a : ndarray A) : ndarray A :=
  let s := shape a in
  let s' := map (fun ax => nth ax s 0) axes in
  {| shape := s';
     data := lookup_all (data a)
               (map (fun k =>
                       let o := unravel s' k in
                       ravel s (map (fun d => nth (index_of d axes) o 0)
                                    (seq 0 (length s))))
                    (seq 0 (size_of s'))) |}.

(** [np.transpose(a, axes)] *)
Definition np_transpose {A : Type} (a : ndarray A) (axes : list nat) : res (ndarray A) :=
  if length axes =? length (shape a)
  then Ok (transpose_axes axes a)
  else Err (ValueError "axes don't match array").

(** Broadcasting of two shapes, aligned on their last axes. *)
Fixpoint broadcast_rev (r1 r2 : list nat) : option (list nat) :=
  match r1, r2 with
  | [], r => Some r
  | r, [] => Some r
  | d1 :: t1, d2 :: t2 =>
      match broadcast_rev t1 t2 with
      | None => None
      | Some t =>
          if d1 =? d2 then Some (d1 :: t)
          else if d1 =? 1 then Some (d2 :: t)
          else if d2 =? 1 then Some (d1 :: t)
          else None
      end
  end.

Definition broadcast_shapes (s1 s2 : list nat) : option (list nat) :=
  option_map (@rev nat) (broadcast_rev (rev s1) (rev s2)).

Fixpoint clamp_unit_axes (s idx : list nat) : list nat :=
  match s, idx with
  | d :: s', i :: idx' => (if d =? 1 then 0 else i) :: clamp_unit_axes s' idx'
  | _, _ => []
  end.

(** The flat data of [a] stretched to the shape [b]. *)
Definition broadcast_to {A : Type} (a : ndarray A) (b : list nat) : list A :=
  let s := shape a in
  lookup_all (data a)
    (map (fun k =>
            let o := skipn (length b - length s) (unravel b k) in
            ravel s (clamp_unit_axes s o))
         (seq 0 (size_of b))).

Fixpoint list_eqb (s1 s2 : list nat) : bool :=
  match s1, s2 with
  | [], [] => true
  | d1 :: t1, d2 :: t2 => (d1 =? d2) && list_eqb t1 t2
  | _, _ => false
  end.

Fixpoint zip_with {A B C : Type} (f : A -> B -> C) (l1 : list A) (l2 : list B) : list C :=
  match l1, l2 with
  | a :: l1', b :: l2' => f a b :: zip_with f l1' l2'
  | _, _ => []
  end.

(** An elementwise binary operator: position by position on equal shapes,
    through broadcasting otherwise; [e] is what the library raises when the
    shapes do not broadcast. *)
Definition binop {A : Type} (e : exn) (f : A -> A -> A) (a b : ndarray A) : res (ndarray A) :=
  if list_eqb (shape a) (shape b)
  then Ok {| shape := shape a; data := zip_with f (data a) (data b) |}
  else match broadcast_shapes (shape a) (shape b) with
       | Some s =>
           Ok {| shape := s;
                 data := zip_with f (broadcast_to a s) (broadcast_to b s) |}
       | None => Err e
       end.

(** An index along an axis of length [d]; negative indices count from the end. *)
Definition wrap_index (i : Z) (d : nat) : res nat :=
  if ((0 <=? i) && (i <? Z.of_nat d))%Z then Ok (Z.to_nat i)
  else if ((- Z.of_nat d <=? i) && (i <? 0))%Z then Ok (Z.to_nat (i + Z.of_nat d))
  else Err IndexError.

(** [outputs[idx, y]]: the two index arrays are broadcast together and pick
    along the first two axes; the remaining axes are kept. *)
Definition index_pairs {A : Type} (outputs : ndarray A) (idx y : ndarray Z) : res (ndarray A) :=
  match shape outputs with
  | d0 :: d1 :: rest =>
      match broadcast_shapes (shape idx) (shape y) with
      | None => Err IndexError
      | Some b =>
          blocks <- mapM (fun ij : Z * Z =>
                            i <- wrap_index (fst ij) d0 ;;
                            j <- wrap_index (snd ij) d1 ;;
                            Ok (slice (data outputs)
                                      ((i * d1 + j) * size_of rest) (size_of rest)))
                         (combine (broadcast_to idx b) (broadcast_to y b)) ;;
          Ok {| shape := b ++ rest; data := concat blocks |}
      end
  | _ => Err IndexError
  end.

(** [torch.arange(n)] *)
Definition arange (n : nat) : ndarray Z :=
  {| shape := [n]; data := map Z.of_nat (seq 0 n) |}.

(** [torch.unbind(a)]: the slices of [a] along its first axis. *)
Definition unbind {A : Type} (a : ndarray A) : res (list (ndarray A)) :=
  match shape a with
  | [] => Err RuntimeError
  | d :: rest =>
      Ok (map (fun i => {| shape := rest;
                           data := slice (data a) (i * size_of rest) (size_of rest) |})
              (seq 0 d))
  end.

(** [tf.gather(outputs, y, axis=1)] *)
Definition gather_axis1 {A : Type} (outputs : ndarray A) (y : ndarray Z) : res (ndarray A) :=
  match shape outputs with
  | d0 :: d1 :: rest =>
      rows <- mapM (fun i =>
                      mapM (fun j : Z =>
                              if ((0 <=? j) && (j <? Z.of_nat d1))%Z
                              then Ok (slice (data outputs)
                                             ((i * d1 + Z.to_nat j) * size_of rest)
                                             (size_of rest))
                              else Err InvalidArgumentError)
                           (data y))
                   (seq 0 d0) ;;
      Ok {| shape := d0 :: shape y ++ rest; data := concat (concat rows) |}
  | _ => Err InvalidArgumentError
  end.

(** [tf.reshape(a, shape=(-1,))] *)
Definition flatten {A : Type} (a : ndarray A) : ndarray A :=
  {| shape := [length (data a)]; data := data a |}.

Section WithScalar.
Context {SC : Scalar}.

Definition min2 (a b : num) : num := if ltb b a then b else a.
Definition max2 (a b : num) : num := if ltb a b then b else a.

(** [np.min(a)] and [np.max(a)] over all the entries. *)
Definition np_min (a : ndarray num) : res num :=
  match data a with
  | [] => Err (ValueError "zero-size array to reduction operation minimum which has no identity")
  | v :: vs => Ok (fold_left min2 vs v)
  end.

Definition np_max (a : ndarray num) : res num :=
  match data a with
  | [] => Err (ValueError "zero-size array to reduction operation maximum which has no identity")
  | v :: vs => Ok (fold_left max2 vs v)
  end.

(** Position of the first greatest entry of [v :: vs]. *)
Fixpoint argmax_from (best : nat) (bv : num) (k : nat) (vs : list num) : nat :=
  match vs with
  | [] => best
  | v :: vs' =>
      if ltb bv v then argmax_from k v (S k) vs'
      else argmax_from best bv (S k) vs'
  end.

Definition argmax_list (l : list num) : nat :=
  match l with
  | [] => 0
  | v :: vs => argmax_from 0 v 1 vs
  end.

(** The arg-max of [a] along [axis], which the result no longer has. *)
Definition argmax_axis (a : ndarray num) (axis : nat) : ndarray Z :=
  let s := shape a in
  let n := nth axis s 0 in
  let inner := size_of (skipn (S axis) s) in
  {| shape := firstn axis s ++ skipn (S axis) s;
     data := flat_map
               (fun o =>
                  map (fun i =>
                         Z.of_nat
                           (argmax_list
                              (lookup_all (data a)
                                 (map (fun j => (o * n + j) * inner + i) (seq 0 n)))))
                      (seq 0 inner))
               (seq 0 (size_of (firstn axis s))) |}.

(** [np.argmax(a, axis=axis)] *)
Definition np_argmax (a : ndarray num) (axis : nat) : res (ndarray Z) :=
  if length (shape a) <=? axis then Err AxisError
  else if nth axis (shape a) 0 =? 0
       then Err (ValueError "attempt to get argmax of an empty sequence")
       else Ok (argmax_axis a axis).

(** [tf.argmax(a, axis=-1)] *)
Definition tf_argmax_last (a : ndarray num) : res (ndarray Z) :=
  match length (shape a) with
  | 0 => Err InvalidArgumentError
  | S k =>
      if nth k (shape a) 0 =? 0 then Err InvalidArgumentError
      else Ok (argmax_axis a k)
  end.

End WithScalar.

End NumPy.

Import NumPy.

(* ================================================================== *)
(** ** The collaborators of the module *)

(** Modelled from the spec: the image container [omnixai.data.image.Image],
    which is not among the sources: pixel data, a batch flag and a
    channel-order flag; [.shape] is the shape of the pixel data,
    [.to_numpy()] the pixel data and [len] its leading dimension. *)
Record Image {SC : Scalar} : Type := mk_Image {
  img_data : ndarray num;
  batched : bool;
  channel_last : bool
}.

(** What a preprocessing function may return: a NumPy array or a tensor of
    either framework. *)
Inductive tensor_like {SC : Scalar} : Type :=
| NpArray (a : ndarray num)
| TorchTensor (a : ndarray num)
| TfTensor (a : ndarray num).

(** The target labels [y]: an int, a list of ints, or an integer array. *)
Inductive labels : Type :=
| YInt (k : Z)
| YList (l : list Z)
| YArray (a : ndarray Z).

(** A model as the engines use it: its forward pass.  [model.eval()] and the
    device of its parameters (lines 55-56, 202-203) change no value computed
    here; a model is taken with the parameters those lines read. *)
Record Net {SC : Scalar} : Type := mk_Net {
  forward : ndarray num -> ndarray num
}.

(** The objects [smooth_grad] may be handed as [model], with the name of
    their class. *)
Inductive py_model {SC : Scalar} : Type :=
| TorchModule (cls : string) (m : Net)
| KerasModel (cls : string) (m : Net)
| OtherObject (cls : string).

(** What the module takes from its environment: the random source behind
    [np.random.randn], the answers of [is_torch_available] and
    [is_tf_available] ([omnixai.utils.misc], not among the sources), and the
    reverse-mode differentiation of the two frameworks, given the computation
    from the watched input to the differentiated outputs. *)
Class Runtime (SC : Scalar) : Type := {
  rng_state : Type;
  randn_draw : rng_state -> num * rng_state;
  torch_installed : bool;
  tf_installed : bool;
  autograd_grad :
    (ndarray num -> res (list (ndarray num))) -> ndarray num -> res (ndarray num);
  tape_gradient :
    (ndarray num -> res (ndarray num)) -> ndarray num -> res (ndarray num)
}.

Section Embedding.
Context {SC : Scalar} {RT : Runtime SC}.

Definition Image_shape (image : Image) : list nat := shape (img_data image).
Definition to_numpy (image : Image) : ndarray num := img_data image.
Definition Image_len (image : Image) : res nat := shape0 (Image_shape image).

Definition preprocess : Type := Image -> tensor_like.

(** [x.detach().cpu().numpy()] (a torch tensor has [detach], a tf tensor
    does not) and [x.numpy()]. *)
Definition detach_cpu_numpy (x : tensor_like) : option (ndarray num) :=
  match x with TorchTensor a => Some a | _ => None end.

Definition numpy_method (x : tensor_like) : res (ndarray num) :=
  match x with
  | TorchTensor a => Ok a
  | TfTensor a => Ok a
  | NpArray _ => Err TypeError
  end.

(* ------------------------------------------------------------------ *)
(** *** GradMixin._resize (lines 15-41) *)

Definition _resize (preprocess_function : option preprocess) (image : Image) : res Image :=
  b <- shape0 (Image_shape image) ;;
  if negb (b =? 1) then Err (AssertionError "`image` can contain one instance only.")
  else
    match preprocess_function with
    | None => Ok image
    | Some f =>
        let y := to_numpy image in
        let x := f image in
        x <- match x with
             | NpArray a => Ok a                        (* isinstance(x, np.ndarray) *)
             | _ => match detach_cpu_numpy x with       (* try *)
                    | Some a => Ok a
                    | None => numpy_method x            (* except *)
                    end
             end ;;
        let x := squeeze x in
        d <- shape0 (shape x) ;;
        x <- (if d =? 3 then np_transpose x [1; 2; 0] else Ok x) ;;
        min_a <- np_min y ;;
        max_a <- np_max y ;;
        min_b <- np_min x ;;
        max_b <- np_max x ;;
        let r := div (sub max_a min_a) (add (sub max_b min_b) eps) in
        Ok (mk_Image _
              (amap (fun v => astype_int (sub (add (mul r v) min_a) (mul r min_b))) x)
              false true)
    end.

(* ------------------------------------------------------------------ *)
(** *** Effects: the random source and the calls that leave a trace *)

Inductive event : Type :=
| IsTorchAvailable                    (* is_torch_available() *)
| IsTfAvailable                       (* is_tf_available() *)
| IsInstance (cls : string)           (* isinstance(model, cls) *)
| Randn (s : list nat)                (* np.random.randn( *s ) *)
| Backward (x : ndarray num)          (* a gradient with respect to x *)
| RegisterForwardHook                 (* module.register_forward_hook(...) *)
| RegisterBackwardHook                (* module.register_backward_hook(...) *)
| RemoveHook (h : nat).               (* hook.remove() *)

Record world : Type := mk_world {
  rng : rng_state;
  log : list event      (* oldest first *)
}.

Definition M (A : Type) : Type := world -> res A * world.

Definition ret {A : Type} (a : A) : M A := fun w => (Ok a, w).

Definition raise {A : Type} (e : exn) : M A := fun w => (Err e, w).

Definition mbind {A B : Type} (c : M A) (k : A -> M B) : M B :=
  fun w =>
    match c w with
    | (Ok a, w') => k a w'
    | (Err e, w') => (Err e, w')
    end.

Definition lift {A : Type} (r : res A) : M A := fun w => (r, w).

Definition emit (e : event) : M unit :=
  fun w => (Ok tt, {| rng := rng w; log := log w ++ [e] |}).

End Embedding.

Declare Scope m_scope.
Delimit Scope m_scope with M.
Notation "x <~ c ;; k" := (mbind c (fun x => k))
  (at level 100, c at next level, right associativity) : m_scope.
Open Scope m_scope.

Section Engines.
Context {SC : Scalar} {RT : Runtime SC}.

(** [np.random.randn( *s )]: one draw per entry, in row-major order. *)
Fixpoint draws (n : nat) (g : rng_state) : list num * rng_state :=
  match n with
  | 0 => ([], g)
  | S n' =>
      let (v, g1) := randn_draw g in
      let (vs, g2) := draws n' g1 in
      (v :: vs, g2)
  end.

Definition randn (s : list nat) : M (ndarray num) :=
  fun w =>
    let (vs, g) := draws (size_of s) (rng w) in
    (Ok {| shape := s; data := vs |}, {| rng := g; log := log w ++ [Randn s] |}).

(** A backward pass: it is recorded, and yields what the framework computed. *)
Definition backward (x : ndarray num) (grad : res (ndarray num)) : M (ndarray num) :=
  _ <~ emit (Backward x) ;; lift grad.

(** [for _ in range(n)] over a loop-carried value. *)
Fixpoint for_range {A : Type} (n : nat) (body : A -> M A) (a : A) : M A :=
  match n with
  | 0 => ret a
  | S n' => a' <~ body a ;; for_range n' body a'
  end.

Fixpoint for_each {A : Type} (l : list A) (body : A -> M unit) : M unit :=
  match l with
  | [] => ret tt
  | a :: l' => _ <~ body a ;; for_each l' body
  end.

(* ------------------------------------------------------------------ *)
(** *** Labels *)

(** [len(y)] *)
Definition labels_len (y : labels) : res nat :=
  match y with
  | YInt _ => Err TypeError
  | YList l => Ok (length l)
  | YArray a => match shape a with [] => Err TypeError | d :: _ => Ok d end
  end.

(** [type(y)] as an f-string prints it. *)
Definition labels_type (y : labels) : string :=
  match y with
  | YInt _ => "<class 'int'>"
  | YList _ => "<class 'list'>"
  | YArray _ => "<class 'numpy.ndarray'>"
  end.

(** [y] as an index array. *)
Definition labels_index (y : labels) : ndarray Z :=
  match y with
  | YInt k => {| shape := []; data := [k] |}
  | YList l => {| shape := [length l]; data := l |}
  | YArray a => a
  end.

Definition label_mismatch (y : labels) : exn :=
  AssertionError
    ("Parameter ``y`` is a " ++ labels_type y
     ++ ", the length of y should be the same as the number of images in X.").

(** Lines 62-75 of [_smooth_grad_torch], repeated as lines 209-222 of
    [_guided_bp_torch]. *)
Definition _resolve_labels_torch (X : Image) (y : option labels) (mode : string)
    (outputs : ndarray num) : res (option labels) :=
  if (mode =? "classification")%string then
    match y with
    | Some (YInt k) =>
        n <- Image_len X ;;
        Ok (Some (YList (repeat k n)))
    | Some y' =>
        n <- Image_len X ;;
        m <- labels_len y' ;;
        if n =? m then Ok (Some y') else Err (label_mismatch y')
    | None =>
        let scores := outputs in
        a <- np_argmax scores 1 ;;
        Ok (Some (YArray a))
    end
  else Ok None.

(** Lines 113-126 of [_smooth_grad_tf]. *)
Definition _resolve_labels_tf (X : Image) (y : option labels) (mode : string)
    (model : Net) (inputs : ndarray num) : res (option labels) :=
  if (mode =? "classification")%string then
    match y with
    | Some (YInt k) =>
        n <- Image_len X ;;
        Ok (Some (YList (repeat k n)))
    | Some y' =>
        n <- Image_len X ;;
        m <- labels_len y' ;;
        if n =? m then Ok (Some y') else Err (label_mismatch y')
    | None =>
        let predictions := forward model inputs in
        a <- tf_argmax_last predictions ;;
        Ok (Some (YArray a))
    end
  else Ok None.

(* ------------------------------------------------------------------ *)
(** *** The accumulator [gradients] *)

(** [gradients] starts as the Python int 0 and is an array from the first
    [+=] on. *)
Inductive accum : Type :=
| PyZero
| NpArr (a : ndarray num).

(** [gradients += grad] *)
Definition iadd (gradients : accum) (grad : ndarray num) : res accum :=
  match gradients with
  | PyZero => Ok (NpArr (amap (fun v => add zero v) grad))
  | NpArr a =>
      r <- binop (ValueError "operands could not be broadcast together") add a grad ;;
      if list_eqb (shape r) (shape a) then Ok (NpArr r)
      else Err (ValueError "non-broadcastable output operand")
  end.

(** [gradients / num_samples] *)
Definition true_divide (gradients : accum) (n : Z) : res (ndarray num) :=
  match gradients with
  | PyZero =>
      if (n =? 0)%Z then Err ZeroDivisionError
      else Ok {| shape := []; data := [div zero (of_int n)] |}
  | NpArr a => Ok (amap (fun v => div v (of_int n)) a)
  end.

(* ------------------------------------------------------------------ *)
(** *** _smooth_grad_torch (lines 44-97) *)

(** Line 57, common to the three engines. *)
Definition apply_preprocess (preprocess_function : option preprocess) (X : Image) : tensor_like :=
  match preprocess_function with
  | Some f => f X
  | None => NpArray (to_numpy X)
  end.

(** Lines 58-59: a torch tensor is kept, anything else goes through
    [torch.tensor(inputs, dtype=torch.get_default_dtype())]. *)
Definition torch_tensor (inputs : tensor_like) : ndarray num :=
  match inputs with
  | TorchTensor a => a
  | NpArray a => amap to_torch_dtype a
  | TfTensor a => amap to_torch_dtype a
  end.

(** Lines 89-92: the outputs that are differentiated, as a function of the
    perturbed input. *)
Definition torch_selected (model : Net) (idx : ndarray Z) (y : option labels)
    (x : ndarray num) : res (list (ndarray num)) :=
  let outputs := forward model x in
  outputs <- match y with
             | Some y' => index_pairs outputs idx (labels_index y')
             | None => Ok outputs
             end ;;
  unbind outputs.

(** Lines 82-93: the body of the sampling loop, from the running sum of
    the gradients to the next one. *)
Definition torch_iteration (model : Net) (idx : ndarray Z) (y : option labels)
    (input_images : ndarray num) (sigma : num) (gradients : accum) : M accum :=
  noise <~ randn (shape input_images) ;;
  let noise := amap (fun v => mul v sigma) noise in
  x <~ lift (binop (ValueError "operands could not be broadcast together")
                   add input_images noise) ;;
  let x := amap to_torch_dtype x in
  _ <~ lift (torch_selected model idx y x) ;;
  grad <~ backward x (autograd_grad (torch_selected model idx y) x) ;;
  lift (iadd gradients grad).

Definition _smooth_grad_torch (X : Image) (y : option labels) (model : Net)
    (preprocess_function : option preprocess) (mode : string)
    (num_samples : Z) (sigma : num) : M (ndarray num * option labels) :=
  let inputs := apply_preprocess preprocess_function X in
  let inputs := torch_tensor inputs in
  let outputs := forward model inputs in
  y <~ lift (_resolve_labels_torch X y mode outputs) ;;
  let gradients := PyZero in
  n <~ lift (shape0 (shape outputs)) ;;
  let idx := arange n in
  let input_images := inputs in
  hi <~ lift (np_max input_images) ;;
  lo <~ lift (np_min input_images) ;;
  let sigma := mul sigma (sub hi lo) in
  gradients <~ for_range (Z.to_nat num_samples)
                         (torch_iteration model idx y input_images sigma) gradients ;;
  gradients <~ lift (true_divide gradients num_samples) ;;
  gradients <~ lift (np_transpose gradients [0; 2; 3; 1]) ;;
  ret (gradients, y).

(* ------------------------------------------------------------------ *)
(** *** _smooth_grad_tf (lines 100-147) *)

(** Line 112: [tf.convert_to_tensor(inputs)] keeps the values. *)
Definition convert_to_tensor (inputs : tensor_like) : ndarray num :=
  match inputs with
  | NpArray a => a
  | TorchTensor a => a
  | TfTensor a => a
  end.

(** Lines 140-142. *)
Definition tf_selected (model : Net) (y : option labels) (x : ndarray num) : res (ndarray num) :=
  let outputs := forward model x in
  match y with
  | Some y' =>
      g <- gather_axis1 outputs (labels_index y') ;;
      Ok (flatten g)
  | None => Ok outputs
  end.

(** Lines 132-144: the body of the sampling loop. *)
Definition tf_iteration (model : Net) (y : option labels)
    (input_images : ndarray num) (sigma : num) (gradients : accum) : M accum :=
  noise <~ randn (shape input_images) ;;
  let noise := amap (fun v => mul v sigma) noise in
  x <~ lift (binop (ValueError "operands could not be broadcast together")
                   add noise input_images) ;;
  let x := amap to_tf_float32 x in
  _ <~ lift (tf_selected model y x) ;;
  grad <~ backward x (tape_gradient (tf_selected model y) x) ;;
  lift (iadd gradients grad).

Definition _smooth_grad_tf (X : Image) (y : option labels) (model : Net)
    (preprocess_function : option preprocess) (mode : string)
    (num_samples : Z) (sigma : num) : M (ndarray num * option labels) :=
  let inputs := apply_preprocess preprocess_function X in
  let inputs := convert_to_tensor inputs in
  y <~ lift (_resolve_labels_tf X y mode model inputs) ;;
  let gradients := PyZero in
  let input_images := inputs in
  hi <~ lift (np_max input_images) ;;
  lo <~ lift (np_min input_images) ;;
  let sigma := mul sigma (sub hi lo) in
  gradients <~ for_range (Z.to_nat num_samples)
                         (tf_iteration model y input_images sigma) gradients ;;
  gradients <~ lift (true_divide gradients num_samples) ;;
  ret (gradients, y).

(* ------------------------------------------------------------------ *)
(** *** smooth_grad (lines 150-188) *)

Definition is_torch_available : M bool :=
  _ <~ emit IsTorchAvailable ;; ret torch_installed.

Definition is_tf_available : M bool :=
  _ <~ emit IsTfAvailable ;; ret tf_installed.

Definition isinstance_nn_Module (model : py_model) : M (option Net) :=
  _ <~ emit (IsInstance "torch.nn.Module") ;;
  ret (match model with TorchModule _ m => Some m | _ => None end).

Definition isinstance_keras_Model (model : py_model) : M (option Net) :=
  _ <~ emit (IsInstance "tf.keras.Model") ;;
  ret (match model with KerasModel _ m => Some m | _ => None end).

(** [type(model)] as an f-string prints it. *)
Definition model_type (model : py_model) : string :=
  match model with
  | TorchModule cls _ => "<class '" ++ cls ++ "'>"
  | KerasModel cls _ => "<class '" ++ cls ++ "'>"
  | OtherObject cls => "<class '" ++ cls ++ "'>"
  end.

Definition smooth_grad (X : Image) (y : option labels) (model : py_model)
    (preprocess_function : option preprocess) (mode : string)
    (num_samples : Z) (sigma : num) : M (ndarray num * option labels) :=
  torch <~ is_torch_available ;;
  a <~ (if torch then isinstance_nn_Module model else ret None) ;;
  match a with
  | Some m => _smooth_grad_torch X y m preprocess_function mode num_samples sigma
  | None =>
      tf <~ is_tf_available ;;
      b <~ (if tf then isinstance_keras_Model model else ret None) ;;
      match b with
      | Some m => _smooth_grad_tf X y m preprocess_function mode num_samples sigma
      | None =>
          raise (ValueError
                   ("`model` should be a tf.keras.Model or a torch.nn.Module instead of "
                    ++ model_type model))
      end
  end.

(* ------------------------------------------------------------------ *)
(** *** _guided_bp_torch (lines 191-243) and its two hooks *)

(** The hooks close over the list [relu_outputs]; here it is passed in and
    handed back. *)
Definition _forward_hook (relu_outputs : list (ndarray num)) (_outputs : ndarray num)
    : list (ndarray num) :=
  relu_outputs ++ [_outputs].

(** [torch.clamp(g, min=0.0)] *)
Definition clamp_min0 (g : ndarray num) : ndarray num :=
  amap (fun v => if ltb v zero then zero else v) g.

(** [activations[activations > 0] = 1] *)
Definition set_positive_to_one (activations : ndarray num) : ndarray num :=
  amap (fun a => if ltb zero a then one else a) activations.

Definition _backward_hook (relu_outputs : list (ndarray num)) (_inputs : list (ndarray num))
    : res (list (ndarray num) * list (ndarray num)) :=
  match rev relu_outputs with
  | [] => Err IndexError
  | activations :: _ =>
      let activations := set_positive_to_one activations in
      match _inputs with
      | [] => Err IndexError
      | g :: _ =>
          modified_grad_out <- binop RuntimeError mul activations (clamp_min0 g) ;;
          Ok (removelast relu_outputs, [modified_grad_out])
      end
  end.

Definition _guided_bp_torch (X : Image) (y : option labels) (model : Net)
    (preprocess_function : option preprocess) (mode : string)
    (num_samples : Z) (sigma : num) : M (option (ndarray num * option labels)) :=
  let inputs := apply_preprocess preprocess_function X in
  let inputs := torch_tensor inputs in
  let outputs := forward model inputs in
  y <~ lift (_resolve_labels_torch X y mode outputs) ;;
  let hooks : list nat := [] in
  let relu_outputs : list (ndarray num) := [] in
  (* try: pass / finally: *)
  _ <~ for_each hooks (fun hook => emit (RemoveHook hook)) ;;
  ret None.

End Engines.

(* ================================================================== *)
(** ** The vocabulary of the specification *)

Section Specification.
Context {SC : Scalar} {RT : Runtime SC}.

(** Greatest and least entry of a non-empty array. *)
Definition max_of (a : ndarray num) : num :=
  match data a with
  | [] => zero
  | v :: vs => fold_left max2 vs v
  end.

Definition min_of (a : ndarray num) : num :=
  match data a with
  | [] => zero
  | v :: vs => fold_left min2 vs v
  end.

(** The affine map of the rescaler, from the range of the processed array
    [x] to the range of the raw array [y]. *)
Definition rescale_ratio (y x : ndarray num) : num :=
  div (sub (max_of y) (min_of y)) (add (sub (max_of x) (min_of x)) eps).

Definition rescaled (y x : ndarray num) : ndarray num :=
  let r := rescale_ratio y x in
  amap (fun v => astype_int (sub (add (mul r v) (min_of y)) (mul r (min_of x)))) x.

(** The processed array as the rescaler reads it: squeezed, and moved to
    channel-last when its leading dimension is 3. *)
Definition channel_last_view (x : ndarray num) : ndarray num :=
  let x := squeeze x in
  match shape x with
  | 3 :: _ => transpose_axes [1; 2; 0] x
  | _ => x
  end.

(** The array behind what a preprocessing function returned. *)
Definition values_of (x : tensor_like) : ndarray num :=
  match x with
  | NpArray a => a
  | TorchTensor a => a
  | TfTensor a => a
  end.

(** The arg-max over the last axis, and the length of that axis. *)
Definition argmax_last_axis (a : ndarray num) : ndarray Z :=
  argmax_axis a (length (shape a) - 1).

Definition last_dim (a : ndarray num) : nat :=
  nth (length (shape a) - 1) (shape a) 0.

(** The noise arrays that [k] successive calls of [np.random.randn( *s )]
    return from the state [g]. *)
Fixpoint noise_draws (k : nat) (s : list nat) (g : rng_state) : list (ndarray num) :=
  match k with
  | 0 => []
  | S k' =>
      let (vs, g') := draws (size_of s) g in
      {| shape := s; data := vs |} :: noise_draws k' s g'
  end.

Definition sigma_effective (sigma : num) (input : ndarray num) : num :=
  mul sigma (sub (max_of input) (min_of input)).

(** The input perturbed by a noise array scaled by [se], in the dtype each
    framework gives it. *)
Definition perturbed_torch (input : ndarray num) (se : num) (noise : ndarray num) : ndarray num :=
  {| shape := shape input;
     data := zip_with (fun a n => to_torch_dtype (add a (mul n se)))
                      (data input) (data noise) |}.

Definition perturbed_tf (input : ndarray num) (se : num) (noise : ndarray num) : ndarray num :=
  {| shape := shape noise;
     data := zip_with (fun n a => to_tf_float32 (add (mul n se) a))
                      (data noise) (data input) |}.

(** The gradient of one iteration, with respect to the perturbed input [x]. *)
Definition torch_gradient_at (model : Net) (idx : ndarray Z) (y : option labels)
    (x : ndarray num) : res (ndarray num) :=
  _ <- torch_selected model idx y x ;;
  autograd_grad (torch_selected model idx y) x.

Definition tf_gradient_at (model : Net) (y : option labels) (x : ndarray num)
    : res (ndarray num) :=
  _ <- tf_selected model y x ;;
  tape_gradient (tf_selected model y) x.

(** The arithmetic mean of arrays of one shape, entry by entry: the sum of
    the entries at a position, from 0 on, over their number. *)
Definition sum_at (gs : list (ndarray num)) (p : nat) : num :=
  fold_left add (map (fun g => nth p (data g) zero) gs) zero.

Definition mean_at (gs : list (ndarray num)) (p : nat) : num :=
  div (sum_at gs p) (of_int (Z.of_nat (length gs))).

Definition arithmetic_mean (gs : list (ndarray num)) : ndarray num :=
  match gs with
  | [] => {| shape := []; data := [] |}
  | g :: _ => {| shape := shape g; data := map (mean_at gs) (seq 0 (length (data g))) |}
  end.

(** A gradient has the layout of the input it was taken at. *)
Definition same_layout (a g : ndarray num) : Prop :=
  shape g = shape a /\ length (data g) = length (data a).

(** What [gradients] holds once the gradients [done] were added to it. *)
Definition running_sum (input : ndarray num) (done : list (ndarray num)) : accum :=
  match done with
  | [] => PyZero
  | _ :: _ =>
      NpArr {| shape := shape input;
               data := map (sum_at done) (seq 0 (length (data input))) |}
  end.

(** [idx]: one position per row of the baseline output. *)
Definition sample_index (outputs : ndarray num) : ndarray Z :=
  arange (hd 0 (shape outputs)).

(** The working input of each engine. *)
Definition torch_input (preprocess_function : option preprocess) (X : Image) : ndarray num :=
  torch_tensor (apply_preprocess preprocess_function X).

Definition tf_input (preprocess_function : option preprocess) (X : Image) : ndarray num :=
  convert_to_tensor (apply_preprocess preprocess_function X).

(** The gradients of [k] iterations, one per noise array replayed from the
    random state [g], each taken at the input perturbed by that noise scaled
    by sigma * (max(input) - min(input)). *)
Definition torch_gradients (model : Net) (y : option labels) (input : ndarray num)
    (sigma : num) (k : nat) (g : rng_state) : res (list (ndarray num)) :=
  mapM (torch_gradient_at model (sample_index (forward model input)) y)
       (map (perturbed_torch input (sigma_effective sigma input))
            (noise_draws k (shape input) g)).

Definition tf_gradients (model : Net) (y : option labels) (input : ndarray num)
    (sigma : num) (k : nat) (g : rng_state) : res (list (ndarray num)) :=
  mapM (tf_gradient_at model y)
       (map (perturbed_tf input (sigma_effective sigma input))
            (noise_draws k (shape input) g)).



End Specification.

(* ================================================================== *)
(** ** Exact rationals, and a runtime to run the engines *)

Definition Qc_ltb (x y : Qc) : bool :=
  match (x ?= y)%Qc with
  | Lt => true
  | _ => false
  end.

(** Truncation towards zero. *)
Definition Qc_trunc (q : Qc) : Qc :=
  Q2Qc (inject_Z (Z.quot (Qnum q) (Zpos (Qden q)))).

#[export] Instance QcScalar : Scalar := {|
  num := Qc;
  zero := Q2Qc 0;
  one := Q2Qc 1;
  eps := Q2Qc (1 # 100000000);
  add := Qcplus;
  sub := Qcminus;
  mul := Qcmult;
  div := Qcdiv;
  ltb := Qc_ltb;
  of_int := fun z => Q2Qc (inject_Z z);
  astype_int := Qc_trunc;
  to_torch_dtype := fun q => q;
  to_tf_float32 := fun q => q
|}.

Definition qc (z : Z) : Qc := Q2Qc (inject_Z z).

(** The sum of all the differentiated outputs. *)
Definition total_of (outs : list (ndarray Qc)) : Qc :=
  fold_left Qcplus (concat (map (@data Qc) outs)) (Q2Qc 0).

Fixpoint bump_at (p : nat) (l : list Qc) : list Qc :=
  match l, p with
  | [], _ => []
  | v :: l', 0 => (v + Q2Qc 1)%Qc :: l'
  | v :: l', S p' => v :: bump_at p' l'
  end.

(** Differentiation by unit differences, which is the gradient of the summed
    outputs whenever they are affine in the input: the models run below are. *)
Definition unit_difference (f : ndarray Qc -> res (list (ndarray Qc))) (x : ndarray Qc)
    : res (ndarray Qc) :=
  base <- f x ;;
  ds <- mapM (fun p =>
                o <- f {| shape := shape x; data := bump_at p (data x) |} ;;
                Ok (total_of o - total_of base)%Qc)
             (seq 0 (length (data x))) ;;
  Ok {| shape := shape x; data := ds |}.

(** A replayable random source: the draws cycle through -1, 0, 1. *)
#[export] Instance QcRuntime : Runtime QcScalar := {|
  rng_state := nat;
  randn_draw := fun n => (qc (Z.of_nat (n mod 3) - 1), S n);
  torch_installed := true;
  tf_installed := true;
  autograd_grad := unit_difference;
  tape_gradient := fun f x => unit_difference (fun x' => o <- f x' ;; Ok [o]) x
|}.

(** The pixels weighted by their position: 1 * x0 + 2 * x1 + ... *)
Definition weighted_sum (l : list Qc) : Qc :=
  fold_left Qcplus
    (zip_with Qcmult (map (fun p => qc (Z.of_nat (S p))) (seq 0 (length l))) l)
    (Q2Qc 0).

(** A two-class scorer over any input: class 0 scores the weighted sum of
    the pixels, class 1 twice that sum plus one, for each of [n] samples. *)
Definition weighted_scores (n : nat) : @Net QcScalar :=
  {| forward := fun x =>
       let s := weighted_sum (data x) in
       {| shape := [n; 2];
          data := concat (repeat [s; (s + s + Q2Qc 1)%Qc] n) |} |}.

(** The same scores with a trailing axis of length one, as a network that
    ends in a pooling layer gives them. *)
Definition pooled_scores : @Net QcScalar :=
  {| forward := fun x =>
       let s := weighted_sum (data x) in
       {| shape := [1; 2; 1]; data := [s; (s + s + Q2Qc 1)%Qc] |} |}.

Definition image_of (s : list nat) (l : list Z) : @Image QcScalar :=
  {| img_data := {| shape := s; data := map qc l |};
     batched := true; channel_last := true |}.

Definition world0 : @world QcScalar QcRuntime := {| rng := 0; log := [] |}.

(** One sample of two channels, one row and two columns. *)
Definition small_image : @Image QcScalar := image_of [1; 2; 1; 2] [1; 2; 3; 5]%Z.

(** One grey-scale sample of three rows and four columns. *)
Definition grey_image : @Image QcScalar :=
  image_of [1; 3; 4; 1] [0; 1; 2; 3; 4; 5; 6; 7; 8; 9; 10; 11]%Z.

(** Two samples at once. *)
Definition two_images : @Image QcScalar :=
  image_of [2; 1; 2; 1] [1; 2; 3; 5]%Z.

(** A preprocessing that hands over the pixels as they are, and one that
    yields a channel-first tensor of three channels. *)
Definition as_array : @Image QcScalar -> @tensor_like QcScalar :=
  fun image => NpArray (to_numpy image).

Definition to_channel_first : @Image QcScalar -> @tensor_like QcScalar :=
  fun _ => TorchTensor {| shape := [1; 3; 1; 2]; data := map qc [0; 10; 20; 30; 40; 50]%Z |}.

Definition to_three_channels : @Image QcScalar -> @tensor_like QcScalar :=
  fun _ => TorchTensor {| shape := [1; 3; 2; 2];
                          data := map qc [0; 1; 2; 3; 4; 5; 6; 7; 8; 9; 10; 11]%Z |}.

#[export] Instance Qc_finiteness : Finiteness QcScalar := {|
  finite := fun _ => True
|}.

(* ================================================================== *)
(** ** IEEE double precision *)

(** Double precision as the Standard Library specifies it ([SpecFloat]):
    signed zeros, two infinities, one NaN and rounding to nearest even. *)
Module Binary64.

Definition prec : Z := 53.
Definition emax : Z := 1024.

Definition of_Z (z : Z) : spec_float := binary_normalize prec emax z 0 false.

(** [astype(int)]: truncation towards zero; NumPy turns an infinity or a NaN
    into the least int64. *)
Definition trunc (x : spec_float) : spec_float :=
  match x with
  | S754_finite s m (Zneg p) => of_Z (cond_Zopp s (Z.shiftr (Zpos m) (Zpos p)))
  | S754_finite _ _ _ => x
  | S754_zero _ => x
  | S754_infinity _ => of_Z (- 2 ^ 63)
  | S754_nan => of_Z (- 2 ^ 63)
  end.

(** Rounding to single precision, the default dtype of torch and
    [tf.float32]; the value stays a double. *)
Definition to_single (x : spec_float) : spec_float :=
  match x with
  | S754_finite s m e =>
      match binary_round 24 128 s m e with
      | S754_finite s' m' e' => binary_round prec emax s' m' e'
      | y => y
      end
  | _ => x
  end.

Definition scalar : Scalar := {|
  num := spec_float;
  zero := S754_zero false;
  one := S754_finite false 4503599627370496 (-52);
  eps := SFdiv prec emax (of_Z 1) (of_Z 100000000);
  add := SFadd prec emax;
  sub := SFsub prec emax;
  mul := SFmul prec emax;
  div := SFdiv prec emax;
  ltb := SFltb;
  of_int := of_Z;
  astype_int := trunc;
  to_torch_dtype := to_single;
  to_tf_float32 := to_single
|}.

(** Zeros and the finite values whose mantissa and exponent are those of a
    double. *)
Definition is_finite (x : spec_float) : Prop :=
  match x with
  | S754_zero _ => True
  | S754_finite _ m e => bounded prec emax m e = true
  | S754_infinity _ => False
  | S754_nan => False
  end.

#[global] Instance finiteness : Finiteness scalar :=
  Build_Finiteness scalar is_finite.

Definition pos_inf : spec_float := S754_infinity false.
Definition neg_zero : spec_float := S754_zero true.

End Binary64.

(* ================================================================== *)
(** ** Further vocabulary: more laws of exact arithmetic, traces *)

(** The laws of [add], [sub] and [div] behind the behaviour of the engines
    without noise.  The rationals have them; finite floating-point values
    have them up to the sign of zero. *)
Class ExactField (SC : Scalar) : Prop := {
  add_zero_l : forall x : num, add zero x = x;
  add_zero_r : forall x : num, add x zero = x;
  sub_diag : forall x : num, sub x x = zero;
  div_one : forall x : num, div x (of_int 1) = x
}.

(** The class a label stands for among [c] classes in torch indexing, where
    a negative label counts from the last class. *)
Definition wrapped (k : Z) (c : nat) : nat :=
  Z.to_nat (if (k <? 0)%Z then k + Z.of_nat c else k).

Section Traces.
Context {SC : Scalar} {RT : Runtime SC}.



(** The labels a run hands back, [y2], against the labels it was given, [y]:
    None outside classification mode; in classification mode a sequence
    comes back as it was given, and has one label per sample, and an int
    comes back as the list of its copies, one per sample. *)
Definition labels_as_given (X : Image) (y : option labels) (mode : string)
    (y2 : option labels) : Prop :=
  ((mode =? "classification")%string = false -> y2 = None)
  /\ (forall l, (mode =? "classification")%string = true ->
                y = Some (YList l) -> y2 = Some (YList l) /\ Image_len X = Ok (length l))
  /\ (forall a, (mode =? "classification")%string = true ->
                y = Some (YArray a) ->
                y2 = Some (YArray a) /\ Ok (hd 0 (shape a)) = Image_len X)
  /\ (forall k, (mode =? "classification")%string = true ->
                y = Some (YInt k) ->
                exists n, Image_len X = Ok n /\ y2 = Some (YList (repeat k n))).

(** An array all of whose entries are [v]. *)
Definition constant_array (v : num) (a : ndarray num) : Prop :=
  data a <> [] /\ Forall (fun u => u = v) (data a).

(** An array with as many entries as its shape says. *)
Definition well_formed {A : Type} (a : ndarray A) : Prop :=
  length (data a) = size_of (shape a).

End Traces.

(** Two samples, two classes: the scores of a sample are its own pixel
    and ten times it. *)
Definition per_sample_scores : @Net QcScalar :=
  {| forward := fun x =>
       {| shape := [2; 2];
          data := flat_map (fun v => [v; (qc 10 * v)%Qc]) (firstn 2 (data x)) |} |}.

Definition flat_image : @Image QcScalar := image_of [1; 1; 1; 4] [3; 3; 3; 3]%Z.

Definition empty_image : @Image QcScalar := image_of [1; 0; 0; 3] [].

Definition to_single_value : @Image QcScalar -> @tensor_like QcScalar :=
  fun _ => NpArray {| shape := [1; 1]; data := [qc 7] |}.

Definition three_channels_as (kind : ndarray Qc -> @tensor_like QcScalar)
    : @Image QcScalar -> @tensor_like QcScalar :=
  fun _ => kind {| shape := [1; 3; 2; 2];
                   data := map qc [0; 1; 2; 3; 4; 5; 6; 7; 8; 9; 10; 11]%Z |}.

(* ================================================================== *)
(** ** Lists and arrays *)

Lemma list_eqb_refl (s : list nat) : list_eqb s s = true.
Proof.
  induction s as [|d s IH]; simpl; [reflexivity|].
  now rewrite Nat.eqb_refl.
Qed.


Lemma map_zip_with_map_r {A B C D E : Type} (f : C -> D) (g : A -> E -> C) (h : B -> E)
    (l1 : list A) (l2 : list B) :
  map f (zip_with g l1 (map h l2)) = zip_with (fun a n => f (g a (h n))) l1 l2.
Proof.
  revert l2; induction l1 as [|a l1 IH]; intros [|b l2]; simpl; try reflexivity.
  now rewrite IH.
Qed.

Lemma map_zip_with_map_l {A B C D E : Type} (f : C -> D) (g : E -> A -> C) (h : B -> E)
    (l1 : list A) (l2 : list B) :
  map f (zip_with g (map h l2) l1) = zip_with (fun n a => f (g (h n) a)) l2 l1.
Proof.
  revert l1; induction l2 as [|b l2 IH]; intros [|a l1]; simpl; try reflexivity.
  now rewrite IH.
Qed.

Lemma map_nth_seq_from {A B : Type} (f : A -> B) (d : A) (l : list A) (a : nat) :
  map f l = map (fun p => f (nth (p - a) l d)) (seq a (length l)).
Proof.
  revert a; induction l as [|v l IH]; intro a; simpl; [reflexivity|].
  rewrite Nat.sub_diag. f_equal.
  rewrite (IH (S a)). apply map_ext_in.
  intros p Hp. apply in_seq in Hp.
  replace (p - a) with (S (p - S a)) by lia. reflexivity.
Qed.

Lemma map_nth_seq {A B : Type} (f : A -> B) (d : A) (l : list A) :
  map f l = map (fun p => f (nth p l d)) (seq 0 (length l)).
Proof.
  rewrite (map_nth_seq_from f d l 0). apply map_ext.
  intro p. now rewrite Nat.sub_0_r.
Qed.

Lemma zip_with_map_seq_from {A B C : Type} (f : A -> B -> C) (F : nat -> A) (d : B)
    (l : list B) (a : nat) :
  zip_with f (map F (seq a (length l))) l
  = map (fun p => f (F p) (nth (p - a) l d)) (seq a (length l)).
Proof.
  revert a; induction l as [|v l IH]; intro a; simpl; [reflexivity|].
  rewrite Nat.sub_diag. f_equal.
  rewrite (IH (S a)). apply map_ext_in.
  intros p Hp. apply in_seq in Hp.
  replace (p - a) with (S (p - S a)) by lia. reflexivity.
Qed.

Lemma zip_with_map_seq {A B C : Type} (f : A -> B -> C) (F : nat -> A) (d : B)
    (l : list B) (n : nat) :
  length l = n ->
  zip_with f (map F (seq 0 n)) l = map (fun p => f (F p) (nth p l d)) (seq 0 n).
Proof.
  intros <-. rewrite (zip_with_map_seq_from f F d l 0). apply map_ext.
  intro p. now rewrite Nat.sub_0_r.
Qed.

Lemma mapM_length {A B : Type} (f : A -> res B) (l : list A) (bs : list B) :
  mapM f l = Ok bs -> length bs = length l.
Proof.
  revert bs; induction l as [|a l IH]; simpl; intros bs H.
  - now injection H as <-.
  - destruct (f a) as [b|e]; simpl in H; [|discriminate].
    destruct (mapM f l) as [bs'|e]; simpl in H; [|discriminate].
    injection H as <-. simpl. f_equal. now apply IH.
Qed.

(* ================================================================== *)
(** ** The image rescaler *)

Section Rescaler.
Context {SC : Scalar}.

Lemma np_min_nonempty (a : ndarray num) :
  data a <> [] -> np_min a = Ok (min_of a).
Proof.
  unfold np_min, min_of. destruct (data a); [congruence | reflexivity].
Qed.

Lemma np_max_nonempty (a : ndarray num) :
  data a <> [] -> np_max a = Ok (max_of a).
Proof.
  unfold np_max, max_of. destruct (data a); [congruence | reflexivity].
Qed.

(** The conversion of lines 29-33 finds the array behind each of the three
    kinds of value. *)
Lemma conversion_values (x : tensor_like) :
  match x with
  | NpArray a => Ok a
  | _ => match detach_cpu_numpy x with
         | Some a => Ok a
         | None => numpy_method x
         end
  end = Ok (values_of x).
Proof. destruct x; reflexivity. Qed.

(** Lines 34-36 succeed on an array that keeps an axis after the squeeze
    and has three of them when the first has length 3. *)
Lemma channel_last_step {B : Type} (x : ndarray num) (k : ndarray num -> res B) :
  shape (squeeze x) <> [] ->
  (hd 0 (shape (squeeze x)) = 3 -> length (shape (squeeze x)) = 3) ->
  (d <- shape0 (shape (squeeze x)) ;;
   x' <- (if d =? 3 then np_transpose (squeeze x) [1; 2; 0] else Ok (squeeze x)) ;;
   k x')
  = k (channel_last_view x).
Proof.
  unfold channel_last_view. intros Hne H3.
  destruct (shape (squeeze x)) as [|d rest] eqn:Hs; [congruence|]. simpl.
  destruct (Nat.eqb_spec d 3) as [->|Hd].
  - specialize (H3 eq_refl). unfold np_transpose. rewrite Hs, H3. reflexivity.
  - destruct d as [|[|[|[|d]]]]; try reflexivity. congruence.
Qed.

(** C1, as amended: for a raw image of batch size 1 with at least one pixel
    and a preprocessing function whose result, once squeezed, keeps an axis,
    has three axes if the first has length 3, and is not empty, [_resize]
    returns a new image, unbatched and channel-last, whose pixel data is
    (r * x + min_a - r * min_b) cast to integer, where x is the squeezed and,
    if its leading dimension is 3, channel-last-transposed processed array,
    min_a/max_a and min_b/max_b are the extrema of the raw array and of x,
    and r = (max_a - min_a) / (max_b - min_b + 1e-8). *)
Theorem resize_rescales (f : Image -> tensor_like) (image : Image) (rest : list nat) :
  Image_shape image = 1 :: rest ->
  data (to_numpy image) <> [] ->
  shape (squeeze (values_of (f image))) <> [] ->
  (hd 0 (shape (squeeze (values_of (f image)))) = 3 ->
   length (shape (squeeze (values_of (f image)))) = 3) ->
  data (channel_last_view (values_of (f image))) <> [] ->
  _resize (Some f) image
  = Ok {| img_data := rescaled (to_numpy image) (channel_last_view (values_of (f image)));
          batched := false;
          channel_last := true |}.
Proof.
  intros Hb Hy Hne H3 Hx. unfold _resize. rewrite Hb.
  cbn [Py.bind shape0 Nat.eqb negb]. rewrite conversion_values.
  cbn [Py.bind]. rewrite channel_last_step by assumption.
  rewrite (np_min_nonempty _ Hy), (np_max_nonempty _ Hy).
  cbn [Py.bind].
  rewrite (np_min_nonempty _ Hx), (np_max_nonempty _ Hx).
  reflexivity.
Qed.

(** C2: with no preprocessing function, an image of batch size 1 comes back
    as it is, pixels and container attributes alike. *)
Theorem resize_without_preprocessing (image : Image) (rest : list nat) :
  Image_shape image = 1 :: rest ->
  _resize None image = Ok image.
Proof.
  intro Hb. unfold _resize. rewrite Hb. reflexivity.
Qed.

(** C3: an image whose leading shape dimension exceeds 1 fails the
    assertion, with or without a preprocessing function. *)
Theorem resize_rejects_batches (preprocess_function : option (Image -> tensor_like))
    (image : Image) (n : nat) (rest : list nat) :
  Image_shape image = n :: rest ->
  1 < n ->
  _resize preprocess_function image
  = Err (AssertionError "`image` can contain one instance only.").
Proof.
  intros Hb Hn. unfold _resize. rewrite Hb. simpl.
  destruct (Nat.eqb_spec n 1) as [->|_]; [lia | reflexivity].
Qed.

End Rescaler.

(* ================================================================== *)
(** ** Labels, the dispatcher and the guided-backprop stub *)

Section Dispatch.
Context {SC : Scalar} {RT : Runtime SC}.

Lemma mbind_lift_ok {A B : Type} (r : res A) (a : A) (k : A -> M B) (w : world) :
  r = Ok a -> mbind (lift r) k w = k a w.
Proof. intros ->. reflexivity. Qed.

Lemma mbind_lift_err {A B : Type} (r : res A) (e : exn) (k : A -> M B) (w : world) :
  r = Err e -> mbind (lift r) k w = (Err e, w).
Proof. intros ->. reflexivity. Qed.



Lemma resolve_torch_mismatch (X : Image) (y : labels) (n m : nat) (outputs : ndarray num) :
  Image_len X = Ok n -> labels_len y = Ok m -> n <> m ->
  _resolve_labels_torch X (Some y) "classification" outputs = Err (label_mismatch y).
Proof.
  intros Hn Hm Hne. unfold _resolve_labels_torch. simpl.
  destruct y as [k|l|a]; [discriminate| |]; rewrite Hn, Hm; simpl;
    destruct (Nat.eqb_spec n m); congruence.
Qed.

Lemma resolve_tf_mismatch (X : Image) (y : labels) (n m : nat) (model : Net)
    (inputs : ndarray num) :
  Image_len X = Ok n -> labels_len y = Ok m -> n <> m ->
  _resolve_labels_tf X (Some y) "classification" model inputs = Err (label_mismatch y).
Proof.
  intros Hn Hm Hne. unfold _resolve_labels_tf. simpl.
  destruct y as [k|l|a]; [discriminate| |]; rewrite Hn, Hm; simpl;
    destruct (Nat.eqb_spec n m); congruence.
Qed.

(** C4: a model that is neither a torch module with torch installed nor a
    keras model with tensorflow installed is refused with a ValueError whose
    message ends in the type of the model; the trace shows the order of the
    checks, torch first, and that no engine ran. *)
Theorem smooth_grad_rejects_other_models (X : Image) (y : option labels)
    (model : py_model) (preprocess_function : option preprocess) (mode : string)
    (num_samples : Z) (sigma : num) (w : world) :
  ~ (torch_installed = true /\ exists cls m, model = TorchModule cls m) ->
  ~ (tf_installed = true /\ exists cls m, model = KerasModel cls m) ->
  smooth_grad X y model preprocess_function mode num_samples sigma w
  = (Err (ValueError
            ("`model` should be a tf.keras.Model or a torch.nn.Module instead of "
             ++ model_type model)),
     {| rng := rng w;
        log := log w
               ++ [IsTorchAvailable]
               ++ (if torch_installed then [IsInstance "torch.nn.Module"] else [])
               ++ [IsTfAvailable]
               ++ (if tf_installed then [IsInstance "tf.keras.Model"] else []) |}).
Proof.
  intros Ha Hb.
  unfold smooth_grad, is_torch_available, is_tf_available, isinstance_nn_Module,
    isinstance_keras_Model, mbind, emit, ret, raise.
  destruct torch_installed, tf_installed, model as [cls m|cls m|cls];
    try solve [exfalso; apply Ha; split; [reflexivity | eauto]];
    try solve [exfalso; apply Hb; split; [reflexivity | eauto]];
    cbn -[String.append]; repeat rewrite <- List.app_assoc; reflexivity.
Qed.


(** C6: in classification mode, a label sequence whose length differs from
    the number of samples fails the assertion in either engine, and the
    world is as before: no noise was drawn and no gradient taken. *)
Theorem label_length_mismatch_fails (X : Image) (y : labels) (n m : nat) (model : Net)
    (preprocess_function : option preprocess) (num_samples : Z) (sigma : num)
    (w : world) :
  Image_len X = Ok n ->
  labels_len y = Ok m ->
  n <> m ->
  _smooth_grad_torch X (Some y) model preprocess_function
    "classification" num_samples sigma w
  = (Err (label_mismatch y), w)
  /\
  _smooth_grad_tf X (Some y) model preprocess_function
    "classification" num_samples sigma w
  = (Err (label_mismatch y), w).
Proof.
  intros Hn Hm Hne. split.
  - unfold _smooth_grad_torch.
    apply mbind_lift_err. now apply resolve_torch_mismatch with (n := n) (m := m).
  - unfold _smooth_grad_tf.
    apply mbind_lift_err. now apply resolve_tf_mismatch with (n := n) (m := m).
Qed.

(** C10: once the labels are resolved, [_guided_bp_torch] returns None and
    leaves the world as it found it: the trace gains no hook registration,
    no hook removal, no noise draw and no backward pass. *)
Theorem guided_bp_only_resolves_labels (X : Image) (y y' : option labels) (model : Net)
    (preprocess_function : option preprocess) (mode : string) (num_samples : Z)
    (sigma : num) (w : world) :
  _resolve_labels_torch X y mode
    (forward model (torch_tensor (apply_preprocess preprocess_function X))) = Ok y' ->
  _guided_bp_torch X y model preprocess_function mode num_samples sigma w = (Ok None, w).
Proof.
  intro Hy. unfold _guided_bp_torch.
  rewrite (mbind_lift_ok _ y' _ w Hy). reflexivity.
Qed.

End Dispatch.

(* ================================================================== *)
(** ** The sampling loop *)

Section Sampling.
Context {SC : Scalar} {RT : Runtime SC}.

Lemma noise_draws_length (k : nat) (s : list nat) (g : rng_state) :
  length (noise_draws k s g) = k.
Proof.
  revert g; induction k as [|k IH]; intro g; simpl; [reflexivity|].
  destruct (draws (size_of s) g) as [vs g']. simpl. now rewrite IH.
Qed.

Lemma sum_at_snoc (done : list (ndarray num)) (g : ndarray num) (p : nat) :
  sum_at (done ++ [g]) p = add (sum_at done p) (nth p (data g) zero).
Proof.
  unfold sum_at. now rewrite map_app, fold_left_app.
Qed.

(** One [gradients += grad]. *)
Lemma iadd_running_sum (input g : ndarray num) (done : list (ndarray num)) :
  same_layout input g ->
  iadd (running_sum input done) g = Ok (running_sum input (done ++ [g])).
Proof.
  intros [Hs Hl]. destruct done as [|d ds]; simpl.
  - unfold amap. rewrite Hs, <- Hl. do 3 f_equal.
    apply (map_nth_seq (fun v => add zero v) zero).
  - unfold binop. simpl. rewrite Hs, list_eqb_refl. simpl.
    rewrite list_eqb_refl. do 3 f_equal.
    rewrite (zip_with_map_seq add _ zero (data g) _ Hl).
    apply map_ext. intro p.
    change (d :: ds ++ [g]) with ((d :: ds) ++ [g]).
    now rewrite sum_at_snoc.
Qed.

(** The loop, for any body that draws one noise array, takes the gradient
    at the perturbed input and adds it to the running sum. *)
Lemma sampling_loop (input : ndarray num) (body : accum -> M accum)
    (grad_at perturb : ndarray num -> res (ndarray num)) :
  (forall acc w vs g1 x g,
      draws (size_of (shape input)) (rng w) = (vs, g1) ->
      perturb {| shape := shape input; data := vs |} = Ok x ->
      grad_at x = Ok g ->
      exists w', body acc w = (iadd acc g, w') /\ rng w' = g1) ->
  forall k done xs gs w,
    mapM perturb (noise_draws k (shape input) (rng w)) = Ok xs ->
    mapM grad_at xs = Ok gs ->
    Forall (same_layout input) gs ->
    exists w',
      for_range k body (running_sum input done) w
      = (Ok (running_sum input (done ++ gs)), w').
Proof.
  intros Hbody k. induction k as [|k IH]; intros done xs gs w Hxs Hgs Hlay; simpl in *.
  - injection Hxs as <-. simpl in Hgs. injection Hgs as <-.
    rewrite app_nil_r. eexists. reflexivity.
  - destruct (draws (size_of (shape input)) (rng w)) as [vs g1] eqn:Hd.
    simpl in Hxs.
    destruct (perturb {| shape := shape input; data := vs |}) as [x|e] eqn:Hx;
      simpl in Hxs; [|discriminate].
    destruct (mapM perturb (noise_draws k (shape input) g1)) as [xs'|e] eqn:Hxs';
      simpl in Hxs; [|discriminate].
    injection Hxs as <-. simpl in Hgs.
    destruct (grad_at x) as [g|e] eqn:Hg; simpl in Hgs; [|discriminate].
    destruct (mapM grad_at xs') as [gs'|e] eqn:Hgs'; simpl in Hgs; [|discriminate].
    injection Hgs as <-.
    inversion Hlay as [|g' gs'' Hg0 Hrest]; subst.
    destruct (Hbody (running_sum input done) w vs g1 x g Hd Hx Hg) as (w1 & Hrun & Hrng).
    unfold mbind at 1. rewrite Hrun, (iadd_running_sum input g done Hg0).
    rewrite <- Hrng in Hxs'.
    destruct (IH (done ++ [g]) xs' gs' w1 Hxs' Hgs' Hrest) as (w' & Hw').
    exists w'. rewrite Hw'. now rewrite <- List.app_assoc.
Qed.

(** [gradients / num_samples] after at least one iteration. *)
Lemma divide_running_sum (input g : ndarray num) (gs : list (ndarray num)) (n : Z) :
  Forall (same_layout input) (g :: gs) ->
  Z.of_nat (length (g :: gs)) = n ->
  true_divide (running_sum input (g :: gs)) n = Ok (arithmetic_mean (g :: gs)).
Proof.
  intros Hlay <-. inversion Hlay as [|g' gs' [Hs Hl] _]; subst.
  unfold running_sum, true_divide, arithmetic_mean, amap. simpl shape. simpl data.
  rewrite Hs, Hl, map_map. reflexivity.
Qed.

End Sampling.

(* ================================================================== *)
(** ** The SmoothGrad engines *)

Section SmoothGrad.
Context {SC : Scalar} {RT : Runtime SC}.

Lemma mapM_pure {A B : Type} (f : A -> B) (l : list A) :
  mapM (fun a => Ok (f a)) l = Ok (map f l).
Proof.
  induction l as [|a l IH]; simpl; [reflexivity|]. now rewrite IH.
Qed.

(** One iteration of the torch loop: the noise is drawn, and the gradient at
    the perturbed input is added to the running sum. *)
Lemma torch_iteration_run (model : Net) (idx : ndarray Z) (y : option labels)
    (input : ndarray num) (se : num) (acc : accum) (w : world)
    (vs : list num) (g1 : rng_state) (x g : ndarray num) :
  draws (size_of (shape input)) (rng w) = (vs, g1) ->
  Ok (perturbed_torch input se {| shape := shape input; data := vs |}) = Ok x ->
  torch_gradient_at model idx y x = Ok g ->
  exists w', torch_iteration model idx y input se acc w = (iadd acc g, w') /\ rng w' = g1.
Proof.
  intros Hd Hx Hg. injection Hx as <-.
  unfold torch_iteration, mbind, randn. rewrite Hd.
  unfold lift, binop. cbn [shape data amap]. rewrite list_eqb_refl.
  replace (amap to_torch_dtype
             {| shape := shape input;
                data := zip_with add (data input) (map (fun v => mul v se) vs) |})
    with (perturbed_torch input se {| shape := shape input; data := vs |})
    by (unfold amap, perturbed_torch; simpl; now rewrite map_zip_with_map_r).
  unfold torch_gradient_at in Hg.
  destruct (torch_selected model idx y
              (perturbed_torch input se {| shape := shape input; data := vs |}))
    as [outs|e]; simpl in Hg; [|discriminate].
  unfold backward, mbind, emit, lift. rewrite Hg.
  eexists. split; reflexivity.
Qed.

Lemma tf_iteration_run (model : Net) (y : option labels)
    (input : ndarray num) (se : num) (acc : accum) (w : world)
    (vs : list num) (g1 : rng_state) (x g : ndarray num) :
  draws (size_of (shape input)) (rng w) = (vs, g1) ->
  Ok (perturbed_tf input se {| shape := shape input; data := vs |}) = Ok x ->
  tf_gradient_at model y x = Ok g ->
  exists w', tf_iteration model y input se acc w = (iadd acc g, w') /\ rng w' = g1.
Proof.
  intros Hd Hx Hg. injection Hx as <-.
  unfold tf_iteration, mbind, randn. rewrite Hd.
  unfold lift, binop. cbn [shape data amap]. rewrite list_eqb_refl.
  replace (amap to_tf_float32
             {| shape := shape input;
                data := zip_with add (map (fun v => mul v se) vs) (data input) |})
    with (perturbed_tf input se {| shape := shape input; data := vs |})
    by (unfold amap, perturbed_tf; simpl; now rewrite map_zip_with_map_l).
  unfold tf_gradient_at in Hg.
  destruct (tf_selected model y
              (perturbed_tf input se {| shape := shape input; data := vs |}))
    as [outs|e]; simpl in Hg; [|discriminate].
  unfold backward, mbind, emit, lift. rewrite Hg.
  eexists. split; reflexivity.
Qed.

Lemma gradients_nonempty (perturb : ndarray num -> ndarray num)
    (grad_at : ndarray num -> res (ndarray num)) (s : list nat) (g : rng_state)
    (K : Z) (gs : list (ndarray num)) :
  (1 <= K)%Z ->
  mapM grad_at (map perturb (noise_draws (Z.to_nat K) s g)) = Ok gs ->
  exists g1 gs', gs = g1 :: gs' /\ Z.of_nat (length gs) = K.
Proof.
  intros HK Hgs. apply mapM_length in Hgs.
  rewrite length_map, noise_draws_length in Hgs.
  destruct gs as [|g1 gs']; simpl in Hgs; [lia|].
  exists g1, gs'. split; [reflexivity|]. simpl length. lia.
Qed.

(** A run of the torch engine whose K gradients exist and have the layout
    of the input. *)
Lemma torch_engine_run (X : Image) (y y' : option labels) (model : Net)
    (preprocess_function : option preprocess) (mode : string) (K : Z) (sigma : num)
    (w : world) (gs : list (ndarray num)) :
  _resolve_labels_torch X y mode (forward model (torch_input preprocess_function X)) = Ok y' ->
  shape (forward model (torch_input preprocess_function X)) <> [] ->
  data (torch_input preprocess_function X) <> [] ->
  length (shape (torch_input preprocess_function X)) = 4 ->
  (1 <= K)%Z ->
  torch_gradients model y' (torch_input preprocess_function X) sigma (Z.to_nat K) (rng w)
  = Ok gs ->
  Forall (same_layout (torch_input preprocess_function X)) gs ->
  fst (_smooth_grad_torch X y model preprocess_function mode K sigma w)
  = Ok (transpose_axes [0; 2; 3; 1] (arithmetic_mean gs), y').
Proof.
  intros Hy Hout Hne H4 HK Hgs Hlay.
  unfold _smooth_grad_torch.
  change (torch_tensor (apply_preprocess preprocess_function X))
    with (torch_input preprocess_function X).
  set (input := torch_input preprocess_function X) in *.
  rewrite (mbind_lift_ok _ y' _ w Hy).
  unfold torch_gradients, sample_index in Hgs.
  destruct (shape (forward model input)) as [|n0 rest] eqn:Hs; [congruence|].
  cbn [hd] in Hgs.
  rewrite (mbind_lift_ok _ n0 _ w eq_refl).
  rewrite (mbind_lift_ok _ _ _ w (np_max_nonempty _ Hne)).
  rewrite (mbind_lift_ok _ _ _ w (np_min_nonempty _ Hne)).
  change (mul sigma (sub (max_of input) (min_of input)))
    with (sigma_effective sigma input) in *.
  destruct (gradients_nonempty _ _ _ _ _ _ HK Hgs) as (g1 & gs' & -> & Hlen).
  destruct (sampling_loop input
              (torch_iteration model (arange n0) y' input (sigma_effective sigma input))
              (torch_gradient_at model (arange n0) y')
              (fun noise => Ok (perturbed_torch input (sigma_effective sigma input) noise))
              (fun acc w0 vs g0 x g => torch_iteration_run _ _ _ _ _ acc w0 vs g0 x g)
              (Z.to_nat K) [] _ _ w (mapM_pure _ _) Hgs Hlay) as (w' & Hloop).
  simpl running_sum in Hloop at 1. simpl app in Hloop.
  unfold mbind at 1. rewrite Hloop.
  rewrite (mbind_lift_ok _ _ _ w' (divide_running_sum input g1 gs' K Hlay Hlen)).
  assert (Ht : np_transpose (arithmetic_mean (g1 :: gs')) [0; 2; 3; 1]
               = Ok (transpose_axes [0; 2; 3; 1] (arithmetic_mean (g1 :: gs')))).
  { unfold np_transpose. simpl shape.
    inversion Hlay as [|? ? [Hs1 _] _]; subst. rewrite Hs1, H4. reflexivity. }
  rewrite (mbind_lift_ok _ _ _ w' Ht). reflexivity.
Qed.

Lemma tf_engine_run (X : Image) (y y' : option labels) (model : Net)
    (preprocess_function : option preprocess) (mode : string) (K : Z) (sigma : num)
    (w : world) (gs : list (ndarray num)) :
  _resolve_labels_tf X y mode model (tf_input preprocess_function X) = Ok y' ->
  data (tf_input preprocess_function X) <> [] ->
  (1 <= K)%Z ->
  tf_gradients model y' (tf_input preprocess_function X) sigma (Z.to_nat K) (rng w)
  = Ok gs ->
  Forall (same_layout (tf_input preprocess_function X)) gs ->
  fst (_smooth_grad_tf X y model preprocess_function mode K sigma w)
  = Ok (arithmetic_mean gs, y').
Proof.
  intros Hy Hne HK Hgs Hlay.
  unfold _smooth_grad_tf.
  change (convert_to_tensor (apply_preprocess preprocess_function X))
    with (tf_input preprocess_function X).
  set (input := tf_input preprocess_function X) in *.
  rewrite (mbind_lift_ok _ y' _ w Hy).
  unfold tf_gradients in Hgs.
  rewrite (mbind_lift_ok _ _ _ w (np_max_nonempty _ Hne)).
  rewrite (mbind_lift_ok _ _ _ w (np_min_nonempty _ Hne)).
  change (mul sigma (sub (max_of input) (min_of input)))
    with (sigma_effective sigma input) in *.
  destruct (gradients_nonempty _ _ _ _ _ _ HK Hgs) as (g1 & gs' & -> & Hlen).
  destruct (sampling_loop input
              (tf_iteration model y' input (sigma_effective sigma input))
              (tf_gradient_at model y')
              (fun noise => Ok (perturbed_tf input (sigma_effective sigma input) noise))
              (fun acc w0 vs g0 x g => tf_iteration_run _ _ _ _ acc w0 vs g0 x g)
              (Z.to_nat K) [] _ _ w (mapM_pure _ _) Hgs Hlay) as (w' & Hloop).
  simpl running_sum in Hloop at 1. simpl app in Hloop.
  unfold mbind at 1. rewrite Hloop.
  rewrite (mbind_lift_ok _ _ _ w' (divide_running_sum input g1 gs' K Hlay Hlen)).
  reflexivity.
Qed.

Lemma resolve_torch_absent (X : Image) (outputs : ndarray num) (n c : nat)
    (rest : list nat) :
  shape outputs = n :: c :: rest -> c <> 0 ->
  _resolve_labels_torch X None "classification" outputs
  = Ok (Some (YArray (argmax_axis outputs 1))).
Proof.
  intros Hs Hc. unfold _resolve_labels_torch, np_argmax. simpl. rewrite Hs. simpl.
  destruct (Nat.eqb_spec c 0); [congruence | reflexivity].
Qed.

Lemma resolve_tf_absent (X : Image) (model : Net) (inputs : ndarray num) :
  shape (forward model inputs) <> [] -> last_dim (forward model inputs) <> 0 ->
  _resolve_labels_tf X None "classification" model inputs
  = Ok (Some (YArray (argmax_last_axis (forward model inputs)))).
Proof.
  unfold _resolve_labels_tf, tf_argmax_last, argmax_last_axis, last_dim. simpl.
  intros Hs Hd. destruct (shape (forward model inputs)) as [|d rest]; [congruence|].
  cbn [length] in *. rewrite Nat.sub_succ, Nat.sub_0_r in *.
  destruct (Nat.eqb_spec (nth (length rest) (d :: rest) 0) 0); [congruence | reflexivity].
Qed.

(** C7, as amended: in classification mode with [y] absent, the torch engine
    resolves the labels as the arg-max over axis 1 of the baseline output,
    which is its last axis when the output has two axes, and the tf engine
    as the arg-max over the last axis; when the K >= 1 gradients exist with
    the layout of the input, the input is not empty (and has four axes, for
    torch), the engine returns a pair whose second component is these
    labels. *)
Theorem absent_labels_are_the_argmax (X : Image) (model : Net)
    (preprocess_function : option preprocess) (K : Z) (sigma : num) (w : world)
    (gs_torch gs_tf : list (ndarray num)) :
  (1 <= K)%Z ->
  (forall n c rest,
      shape (forward model (torch_input preprocess_function X)) = n :: c :: rest ->
      c <> 0 ->
      data (torch_input preprocess_function X) <> [] ->
      length (shape (torch_input preprocess_function X)) = 4 ->
      torch_gradients model
        (Some (YArray (argmax_axis (forward model (torch_input preprocess_function X)) 1)))
        (torch_input preprocess_function X) sigma (Z.to_nat K) (rng w) = Ok gs_torch ->
      Forall (same_layout (torch_input preprocess_function X)) gs_torch ->
      (exists g,
          fst (_smooth_grad_torch X None model preprocess_function
                 "classification" K sigma w)
          = Ok (g, Some (YArray
                           (argmax_axis
                              (forward model (torch_input preprocess_function X)) 1))))
      /\ (rest = [] ->
          argmax_axis (forward model (torch_input preprocess_function X)) 1
          = argmax_last_axis (forward model (torch_input preprocess_function X))))
  /\
  (shape (forward model (tf_input preprocess_function X)) <> [] ->
   last_dim (forward model (tf_input preprocess_function X)) <> 0 ->
   data (tf_input preprocess_function X) <> [] ->
   tf_gradients model
     (Some (YArray (argmax_last_axis (forward model (tf_input preprocess_function X)))))
     (tf_input preprocess_function X) sigma (Z.to_nat K) (rng w) = Ok gs_tf ->
   Forall (same_layout (tf_input preprocess_function X)) gs_tf ->
   exists g,
     fst (_smooth_grad_tf X None model preprocess_function "classification" K sigma w)
     = Ok (g, Some (YArray
                      (argmax_last_axis
                         (forward model (tf_input preprocess_function X)))))).
Proof.
  intro HK. split.
  - intros n c rest Hs Hc Hne H4 Hgs Hlay. split.
    + eexists. eapply torch_engine_run; eauto.
      * eapply resolve_torch_absent; eauto.
      * rewrite Hs. discriminate.
    + intros ->. unfold argmax_last_axis. now rewrite Hs.
  - intros Hs Hd Hne Hgs Hlay.
    eexists. eapply tf_engine_run; eauto.
    now apply resolve_tf_absent.
Qed.

(** C8, as amended: for K >= 1 and the noise draws replayed from the random
    state of the call, when the labels resolve, the working input is not
    empty and each of the K gradients, taken at the input perturbed by a
    noise array scaled by sigma * (max(input) - min(input)), exists with the
    layout of the input, the tf engine returns their arithmetic mean, and the
    torch engine, on an input of four axes and a baseline output with a
    leading axis, returns their arithmetic mean with the axes reordered by
    (0, 2, 3, 1). *)
Theorem smooth_grad_returns_the_mean (X : Image) (y y_torch y_tf : option labels)
    (model : Net) (preprocess_function : option preprocess) (mode : string)
    (K : Z) (sigma : num) (w : world) (gs_torch gs_tf : list (ndarray num)) :
  (1 <= K)%Z ->
  (_resolve_labels_torch X y mode (forward model (torch_input preprocess_function X))
   = Ok y_torch ->
   shape (forward model (torch_input preprocess_function X)) <> [] ->
   data (torch_input preprocess_function X) <> [] ->
   length (shape (torch_input preprocess_function X)) = 4 ->
   torch_gradients model y_torch (torch_input preprocess_function X) sigma
     (Z.to_nat K) (rng w) = Ok gs_torch ->
   Forall (same_layout (torch_input preprocess_function X)) gs_torch ->
   fst (_smooth_grad_torch X y model preprocess_function mode K sigma w)
   = Ok (transpose_axes [0; 2; 3; 1] (arithmetic_mean gs_torch), y_torch))
  /\
  (_resolve_labels_tf X y mode model (tf_input preprocess_function X) = Ok y_tf ->
   data (tf_input preprocess_function X) <> [] ->
   tf_gradients model y_tf (tf_input preprocess_function X) sigma
     (Z.to_nat K) (rng w) = Ok gs_tf ->
   Forall (same_layout (tf_input preprocess_function X)) gs_tf ->
   fst (_smooth_grad_tf X y model preprocess_function mode K sigma w)
   = Ok (arithmetic_mean gs_tf, y_tf)).
Proof.
  intro HK. split.
  - intros. now apply torch_engine_run.
  - intros. now apply tf_engine_run.
Qed.

End SmoothGrad.

(* ================================================================== *)
(** ** The guided-backprop hooks *)

Section Hooks.
Context {SC : Scalar} {FN : Finiteness SC} {FA : FiniteArithmetic SC}.





End Hooks.

(* ------------------------------------------------------------------ *)
(** *** The laws of finite arithmetic in double precision *)

Module Binary64Laws.
Import Binary64.






End Binary64Laws.

(* ================================================================== *)
(** ** The definitions at work *)

Lemma Qc_exact : ExactScalar QcScalar.
Proof.
  constructor; simpl.
  - apply Qcmult_0_l.
  - apply Qcmult_0_r.
  - apply Qcmult_1_l.
  - intros x y Hxy Hyx. unfold Qc_ltb in *. apply Qceq_alt.
    destruct (x ?= y)%Qc eqn:Hc; [reflexivity | discriminate |].
    unfold Qccompare in *. rewrite <- Qcompare_antisym, Hc in Hyx.
    simpl in Hyx. discriminate.
Qed.

Lemma Qc_finite_arithmetic : FiniteArithmetic QcScalar.
Proof.
  constructor.
  - repeat split.
  - intros x _. apply Qcmult_1_l.
  - intros a x (_ & H1 & H2) _.
    rewrite (@ltb_antisym QcScalar Qc_exact a zero H1 H2).
    rewrite (@mul_zero_l QcScalar Qc_exact x). repeat split.
Qed.

Example transpose_to_channel_last :
  transpose_axes [1; 2; 0] {| shape := [3; 1; 2]; data := [0; 1; 2; 3; 4; 5] |}
  = {| shape := [1; 2; 3]; data := [0; 2; 4; 1; 3; 5] |}.
Proof. reflexivity. Qed.

Example squeeze_drops_unit_axes :
  shape (squeeze {| shape := [1; 3; 1; 2]; data := [0; 1; 2; 3; 4; 5] |}) = [3; 2].
Proof. reflexivity. Qed.

Example argmax_of_rows :
  argmax_axis {| shape := [2; 3]; data := map qc [0; 5; 2; 7; 4; 7]%Z |} 1
  = {| shape := [2]; data := [1; 0]%Z |}.
Proof. reflexivity. Qed.

Example argmax_of_columns :
  argmax_axis {| shape := [2; 3]; data := map qc [0; 5; 2; 7; 4; 7]%Z |} 0
  = {| shape := [3]; data := [1; 0; 1]%Z |}.
Proof. reflexivity. Qed.

Example index_pairs_picks_per_row :
  index_pairs {| shape := [2; 3]; data := [10; 11; 12; 20; 21; 22] |}
              (arange 2) {| shape := [2]; data := [2; (-3)]%Z |}
  = Ok {| shape := [2]; data := [12; 20] |}.
Proof. reflexivity. Qed.

Example gather_picks_per_row_and_label :
  gather_axis1 {| shape := [2; 3]; data := [10; 11; 12; 20; 21; 22] |}
               {| shape := [2]; data := [2; 0]%Z |}
  = Ok {| shape := [2; 2]; data := [12; 10; 22; 20] |}.
Proof. reflexivity. Qed.

(** The raw range [1, 5] over the processed range [0, 11]: the greatest
    processed value lands just under 5 and is cut to 4. *)
Example resize_values :
  match _resize (Some to_three_channels) small_image with
  | Ok image => Some (Image_shape image, map this (data (to_numpy image)),
                      batched image, channel_last image)
  | Err _ => None
  end
  = Some ([2; 2; 3], [1; 2; 3; 1; 2; 4; 1; 3; 4; 2; 3; 4]%Q, false, true).
Proof. vm_compute. reflexivity. Qed.

(** Two noisy passes over the two-class scorer: class 1 wins, and the
    gradient of its score 2 * (1 * x0 + 2 * x1 + 3 * x2 + 4 * x3) + 1 is
    [2, 4, 6, 8], which torch hands back channel-last. *)
Example smooth_grad_torch_values :
  match fst (_smooth_grad_torch small_image None (weighted_scores 1) None
               "classification" 2 (qc 1) world0) with
  | Ok (g, y) => Some (shape g, map this (data g), y)
  | Err _ => None
  end
  = Some ([1; 1; 2; 2], [2; 6; 4; 8]%Q, Some (YArray {| shape := [1]; data := [1%Z] |})).
Proof. vm_compute. reflexivity. Qed.

Example smooth_grad_tf_values :
  match fst (_smooth_grad_tf small_image None (weighted_scores 1) None
               "classification" 2 (qc 1) world0) with
  | Ok (g, y) => Some (shape g, map this (data g), y)
  | Err _ => None
  end
  = Some ([1; 2; 1; 2], [2; 4; 6; 8]%Q, Some (YArray {| shape := [1]; data := [1%Z] |})).
Proof. vm_compute. reflexivity. Qed.

Example smooth_grad_trace :
  map (fun e => match e with Randn _ => 1 | Backward _ => 2 | _ => 0 end)
      (log (snd (_smooth_grad_torch small_image None (weighted_scores 1) None
                   "classification" 2 (qc 1) world0)))
  = [1; 2; 1; 2].
Proof. vm_compute. reflexivity. Qed.

(** No sample at all: the Python int 0 is divided by 0. *)
Example smooth_grad_without_samples :
  fst (_smooth_grad_torch small_image None (weighted_scores 1) None
         "classification" 0 (qc 1) world0) = Err ZeroDivisionError.
Proof. reflexivity. Qed.

(** The backward hook in double precision: against the activations 0.0, 2.0
    and 3.0 the incoming gradients 5.0, -1.0 and 4.0 leave as 0.0, 0.0 and
    4.0. *)
Example backward_hook_in_double_precision :
  _backward_hook (SC := Binary64.scalar)
    [{| shape := [3]; data := map Binary64.of_Z [0; 2; 3]%Z |}]
    [{| shape := [3]; data := map Binary64.of_Z [5; (-1); 4]%Z |}]
  = Ok ([], [{| shape := [3]; data := map Binary64.of_Z [0; 0; 4]%Z |}]).
Proof. vm_compute. reflexivity. Qed.

(** A recorded -0.0 gives -0.0, which compares equal to zero. *)
Example backward_hook_on_a_negative_zero :
  _backward_hook (SC := Binary64.scalar)
    [{| shape := [1]; data := [Binary64.neg_zero] |}]
    [{| shape := [1]; data := [Binary64.of_Z 3] |}]
  = Ok ([], [{| shape := [1]; data := [Binary64.neg_zero] |}])
  /\ null (SC := Binary64.scalar) Binary64.neg_zero.
Proof. split; [vm_compute; reflexivity | repeat split]. Qed.

(** The finiteness of the incoming gradient matters: where the activation
    is 0.0 an incoming +inf leaves as 0.0 * inf, a NaN. *)
Example backward_hook_on_an_infinite_gradient :
  _backward_hook (SC := Binary64.scalar)
    [{| shape := [1]; data := [Binary64.of_Z 0] |}]
    [{| shape := [1]; data := [Binary64.pos_inf] |}]
  = Ok ([], [{| shape := [1]; data := [S754_nan] |}]).
Proof. vm_compute. reflexivity. Qed.

Example forward_then_backward_hook :
  option_map (fun r => (length (fst r), map (fun g => map this (data g)) (snd r)))
    (match _backward_hook
             (_forward_hook [] {| shape := [2]; data := map qc [0; 7]%Z |})
             [{| shape := [2]; data := map qc [3; 3]%Z |}] with
     | Ok r => Some r
     | Err _ => None
     end)
  = Some (0, [[0; 3]%Q]).
Proof. vm_compute. reflexivity. Qed.

(** C1: a grey-scale image of three rows, handed over as it is, squeezes to
    a 3 x 4 array, whose leading dimension 3 sends it to the three-axis
    transposition: [_resize] raises and returns no image. *)
Lemma resize_fails_on_three_rows :
  Image_shape grey_image = [1; 3; 4; 1]
  /\ _resize (Some as_array) grey_image = Err (ValueError "axes don't match array").
Proof. split; reflexivity. Qed.

(** The same happens to a channel-first tensor of three channels and a
    single row, whose row axis the squeeze removes. *)
Lemma resize_fails_on_squeezed_row :
  _resize (Some to_channel_first) small_image = Err (ValueError "axes don't match array").
Proof. reflexivity. Qed.

Lemma resize_rescales_witness :
  _resize (Some to_three_channels) small_image
  = Ok {| img_data :=
            rescaled (to_numpy small_image)
                     (channel_last_view (values_of (to_three_channels small_image)));
          batched := false;
          channel_last := true |}.
Proof.
  apply (resize_rescales to_three_channels small_image [2; 1; 2]).
  - reflexivity.
  - discriminate.
  - discriminate.
  - reflexivity.
  - vm_compute. discriminate.
Defined.

Lemma resize_without_preprocessing_witness :
  _resize None small_image = Ok small_image.
Proof.
  apply (resize_without_preprocessing small_image [2; 1; 2]). reflexivity.
Defined.

Lemma resize_rejects_batches_witness :
  _resize (Some as_array) two_images
  = Err (AssertionError "`image` can contain one instance only.").
Proof.
  apply (resize_rejects_batches (Some as_array) two_images 2 [1; 2; 1]).
  - reflexivity.
  - lia.
Defined.

Lemma smooth_grad_rejects_other_models_witness :
  smooth_grad small_image None (OtherObject "builtins.dict") None "classification"
    2 (qc 1) world0
  = (Err (ValueError
            ("`model` should be a tf.keras.Model or a torch.nn.Module instead of "
             ++ model_type (OtherObject "builtins.dict"))),
     {| rng := rng world0;
        log := log world0
               ++ [IsTorchAvailable]
               ++ (if torch_installed then [IsInstance "torch.nn.Module"] else [])
               ++ [IsTfAvailable]
               ++ (if tf_installed then [IsInstance "tf.keras.Model"] else []) |}).
Proof.
  apply (smooth_grad_rejects_other_models small_image None (OtherObject "builtins.dict")
           None "classification" 2 (qc 1) world0).
  - intros [_ (cls & m & H)]. discriminate H.
  - intros [_ (cls & m & H)]. discriminate H.
Defined.


Lemma label_length_mismatch_fails_witness :
  _smooth_grad_torch small_image (Some (YList [0; 1]%Z)) (weighted_scores 1) None
    "classification" 2 (qc 1) world0
  = (Err (label_mismatch (YList [0; 1]%Z)), world0)
  /\
  _smooth_grad_tf small_image (Some (YList [0; 1]%Z)) (weighted_scores 1) None
    "classification" 2 (qc 1) world0
  = (Err (label_mismatch (YList [0; 1]%Z)), world0).
Proof.
  apply (label_length_mismatch_fails small_image (YList [0; 1]%Z) 1 2
           (weighted_scores 1) None 2 (qc 1) world0).
  - reflexivity.
  - reflexivity.
  - lia.
Defined.

Lemma guided_bp_only_resolves_labels_witness :
  _guided_bp_torch small_image None (weighted_scores 1) None "classification"
    2 (qc 1) world0
  = (Ok None, world0).
Proof.
  apply (guided_bp_only_resolves_labels small_image None
           (Some (YArray {| shape := [1]; data := [1%Z] |}))
           (weighted_scores 1) None "classification" 2 (qc 1) world0).
  vm_compute. reflexivity.
Defined.

(** C7: a torch model whose baseline output has a trailing axis, shape
    (1, 2, 1).  The engine returns the labels [[1]], the arg-max over axis
    1; the arg-max over the last axis is [[0, 0]]. *)
Lemma torch_labels_are_not_over_the_last_axis :
  exists g ys,
    fst (_smooth_grad_torch small_image None pooled_scores None "classification"
           1 (qc 1) world0)
    = Ok (g, Some (YArray ys))
    /\ ys = {| shape := [1; 1]; data := [1%Z] |}
    /\ argmax_last_axis (forward pooled_scores (torch_input None small_image))
       = {| shape := [1; 2]; data := [0%Z; 0%Z] |}
    /\ ys <> argmax_last_axis (forward pooled_scores (torch_input None small_image)).
Proof.
  eexists. eexists. split; [vm_compute; reflexivity|].
  split; [reflexivity|]. split; [reflexivity|].
  intro H. vm_compute in H. discriminate H.
Qed.

Lemma absent_labels_are_the_argmax_witness :
  (exists g,
      fst (_smooth_grad_torch small_image None (weighted_scores 1) None
             "classification" 2 (qc 1) world0)
      = Ok (g, Some (YArray
                       (argmax_axis
                          (forward (weighted_scores 1) (torch_input None small_image)) 1))))
  /\
  (exists g,
      fst (_smooth_grad_tf small_image None (weighted_scores 1) None
             "classification" 2 (qc 1) world0)
      = Ok (g, Some (YArray
                       (argmax_last_axis
                          (forward (weighted_scores 1) (tf_input None small_image)))))).
Proof.
  destruct (absent_labels_are_the_argmax small_image (weighted_scores 1) None 2 (qc 1)
              world0
              (repeat {| shape := [1; 2; 1; 2]; data := map qc [2; 4; 6; 8]%Z |} 2)
              (repeat {| shape := [1; 2; 1; 2]; data := map qc [2; 4; 6; 8]%Z |} 2)
              ltac:(lia)) as [Htorch Htf].
  split.
  - apply (Htorch 1 2 []).
    + reflexivity.
    + discriminate.
    + discriminate.
    + reflexivity.
    + vm_compute. reflexivity.
    + repeat constructor.
  - apply Htf.
    + discriminate.
    + discriminate.
    + discriminate.
    + vm_compute. reflexivity.
    + repeat constructor.
Defined.

(** C8: what the torch engine returns is not the mean of its K gradients
    but that mean with its axes reordered: here the mean is the array
    [2, 4, 6, 8] of shape (1, 2, 1, 2) and the engine returns [2, 6, 4, 8]
    of shape (1, 1, 2, 2). *)
Lemma torch_returns_the_mean_reordered :
  exists gs g y,
    torch_gradients (weighted_scores 1) y (torch_input None small_image) (qc 1) 2
      (rng world0) = Ok gs
    /\ fst (_smooth_grad_torch small_image None (weighted_scores 1) None
              "classification" 2 (qc 1) world0) = Ok (g, y)
    /\ (shape (arithmetic_mean gs), map this (data (arithmetic_mean gs)))
       = ([1; 2; 1; 2], [2; 4; 6; 8]%Q)
    /\ (shape g, map this (data g)) = ([1; 1; 2; 2], [2; 6; 4; 8]%Q)
    /\ g <> arithmetic_mean gs.
Proof.
  eexists. eexists. eexists.
  split; [|split; [vm_compute; reflexivity|]].
  - vm_compute. reflexivity.
  - split; [vm_compute; reflexivity|]. split; [vm_compute; reflexivity|].
    intro H. apply (f_equal (@shape Qc)) in H. vm_compute in H. discriminate H.
Qed.

Lemma smooth_grad_returns_the_mean_witness :
  fst (_smooth_grad_torch small_image None (weighted_scores 1) None
         "classification" 2 (qc 1) world0)
  = Ok (transpose_axes [0; 2; 3; 1]
          (arithmetic_mean
             (repeat {| shape := [1; 2; 1; 2]; data := map qc [2; 4; 6; 8]%Z |} 2)),
        Some (YArray {| shape := [1]; data := [1%Z] |}))
  /\
  fst (_smooth_grad_tf small_image None (weighted_scores 1) None
         "classification" 2 (qc 1) world0)
  = Ok (arithmetic_mean
          (repeat {| shape := [1; 2; 1; 2]; data := map qc [2; 4; 6; 8]%Z |} 2),
        Some (YArray {| shape := [1]; data := [1%Z] |})).
Proof.
  destruct (smooth_grad_returns_the_mean small_image None
              (Some (YArray {| shape := [1]; data := [1%Z] |}))
              (Some (YArray {| shape := [1]; data := [1%Z] |}))
              (weighted_scores 1) None "classification" 2 (qc 1) world0
              (repeat {| shape := [1; 2; 1; 2]; data := map qc [2; 4; 6; 8]%Z |} 2)
              (repeat {| shape := [1; 2; 1; 2]; data := map qc [2; 4; 6; 8]%Z |} 2)
              ltac:(lia)) as [Htorch Htf].
  split.
  - apply Htorch.
    + vm_compute. reflexivity.
    + discriminate.
    + discriminate.
    + reflexivity.
    + vm_compute. reflexivity.
    + repeat constructor.
  - apply Htf.
    + vm_compute. reflexivity.
    + discriminate.
    + vm_compute. reflexivity.
    + repeat constructor.
Defined.

(** The hook is written for what a rectified-linear layer records.  On an
    array with a negative entry the mask leaves that entry as it is: an
    activation of -2 against an incoming gradient of 3 gives -2 * 3 = -6. *)
Example backward_hook_keeps_negative_activations :
  exists out,
    _backward_hook [{| shape := [1]; data := [qc (-2)] |}]
                   [{| shape := [1]; data := [qc 3] |}]
    = Ok ([], [out])
    /\ ltb zero (qc (-2)) = false
    /\ map this (data out) = [(-6 # 1)%Q]
    /\ nth_error (data out) 0 <> Some zero.
Proof.
  eexists. split; [vm_compute; reflexivity|].
  split; [reflexivity|]. split; [reflexivity|].
  intro H. apply (f_equal (option_map this)) in H. vm_compute in H. discriminate H.
Qed.


(* ================================================================== *)
(** ** Beyond the claims: the dispatcher *)

Section Delegation.
Context {SC : Scalar} {RT : Runtime SC}.

(** X1: with torch installed, a torch module goes to the torch engine after
    the two torch checks; tensorflow is not asked for, installed or not. *)
Theorem smooth_grad_prefers_torch (X : Image) (y : option labels) (cls : string)
    (m : Net) (preprocess_function : option preprocess) (mode : string)
    (num_samples : Z) (sigma : num) (w : world) :
  torch_installed = true ->
  smooth_grad X y (TorchModule cls m) preprocess_function mode num_samples sigma w
  = _smooth_grad_torch X y m preprocess_function mode num_samples sigma
      {| rng := rng w;
         log := log w ++ [IsTorchAvailable; IsInstance "torch.nn.Module"] |}.
Proof.
  intro Ht.
  unfold smooth_grad, is_torch_available, isinstance_nn_Module, mbind, emit, ret.
  rewrite Ht. cbn -[_smooth_grad_torch]. now rewrite <- List.app_assoc.
Qed.

(** X2: with tensorflow installed, a keras model goes to the tf engine, after
    the torch availability check, the torch type check when torch is
    installed, and the two tensorflow checks. *)
Theorem smooth_grad_falls_back_to_tf (X : Image) (y : option labels) (cls : string)
    (m : Net) (preprocess_function : option preprocess) (mode : string)
    (num_samples : Z) (sigma : num) (w : world) :
  tf_installed = true ->
  smooth_grad X y (KerasModel cls m) preprocess_function mode num_samples sigma w
  = _smooth_grad_tf X y m preprocess_function mode num_samples sigma
      {| rng := rng w;
         log := log w
                ++ [IsTorchAvailable]
                ++ (if torch_installed then [IsInstance "torch.nn.Module"] else [])
                ++ [IsTfAvailable; IsInstance "tf.keras.Model"] |}.
Proof.
  intro Ht.
  unfold smooth_grad, is_torch_available, is_tf_available, isinstance_nn_Module,
    isinstance_keras_Model, mbind, emit, ret.
  rewrite Ht. destruct torch_installed; cbn -[_smooth_grad_tf];
    repeat rewrite <- List.app_assoc; reflexivity.
Qed.

End Delegation.

(* ================================================================== *)
(** ** Beyond the claims: labels and sample counts *)

Section LabelsAndCounts.
Context {SC : Scalar} {RT : Runtime SC}.

Lemma resolve_torch_other_mode (X : Image) (y : option labels) (mode : string)
    (outputs : ndarray num) :
  (mode =? "classification")%string = false ->
  _resolve_labels_torch X y mode outputs = Ok None.
Proof. intro Hm. unfold _resolve_labels_torch. now rewrite Hm. Qed.

Lemma resolve_tf_other_mode (X : Image) (y : option labels) (mode : string)
    (model : Net) (inputs : ndarray num) :
  (mode =? "classification")%string = false ->
  _resolve_labels_tf X y mode model inputs = Ok None.
Proof. intro Hm. unfold _resolve_labels_tf. now rewrite Hm. Qed.

(** X3: outside classification mode [y] is not read: whatever is passed,
    an int, a sequence of the wrong length or nothing, either engine runs as
    it does without labels. *)
Theorem labels_are_ignored_outside_classification (X : Image) (y : option labels)
    (model : Net) (preprocess_function : option preprocess) (mode : string)
    (num_samples : Z) (sigma : num) (w : world) :
  (mode =? "classification")%string = false ->
  _smooth_grad_torch X y model preprocess_function mode num_samples sigma w
  = _smooth_grad_torch X None model preprocess_function mode num_samples sigma w
  /\
  _smooth_grad_tf X y model preprocess_function mode num_samples sigma w
  = _smooth_grad_tf X None model preprocess_function mode num_samples sigma w.
Proof.
  intro Hm. split.
  - unfold _smooth_grad_torch.
    now rewrite (resolve_torch_other_mode X y), (resolve_torch_other_mode X None).
  - unfold _smooth_grad_tf.
    now rewrite (resolve_tf_other_mode X y), (resolve_tf_other_mode X None).
Qed.

(** What an engine hands back as labels is what the label block resolved. *)
Lemma torch_returns_resolved_labels (X : Image) (y y2 : option labels) (model : Net)
    (preprocess_function : option preprocess) (mode : string) (num_samples : Z)
    (sigma : num) (w : world) (g : ndarray num) :
  fst (_smooth_grad_torch X y model preprocess_function mode num_samples sigma w)
  = Ok (g, y2) ->
  _resolve_labels_torch X y mode (forward model (torch_input preprocess_function X))
  = Ok y2.
Proof.
  unfold _smooth_grad_torch, torch_input, mbind, lift, ret.
  destruct (_resolve_labels_torch _ _ _ _) as [y'|e]; [|discriminate].
  destruct (shape0 _) as [n|e]; [|discriminate].
  destruct (np_max _) as [hi|e]; [|discriminate].
  destruct (np_min _) as [lo|e]; [|discriminate].
  destruct (for_range _ _ _ _) as [[acc|e] w']; [|discriminate].
  destruct (true_divide _ _) as [q|e]; [|discriminate].
  destruct (np_transpose _ _) as [t|e]; [|discriminate].
  simpl. intro H. inversion H. reflexivity.
Qed.

Lemma tf_returns_resolved_labels (X : Image) (y y2 : option labels) (model : Net)
    (preprocess_function : option preprocess) (mode : string) (num_samples : Z)
    (sigma : num) (w : world) (g : ndarray num) :
  fst (_smooth_grad_tf X y model preprocess_function mode num_samples sigma w)
  = Ok (g, y2) ->
  _resolve_labels_tf X y mode model (tf_input preprocess_function X) = Ok y2.
Proof.
  unfold _smooth_grad_tf, tf_input, mbind, lift, ret.
  destruct (_resolve_labels_tf _ _ _ _ _) as [y'|e]; [|discriminate].
  destruct (np_max _) as [hi|e]; [|discriminate].
  destruct (np_min _) as [lo|e]; [|discriminate].
  destruct (for_range _ _ _ _) as [[acc|e] w']; [|discriminate].
  destruct (true_divide _ _) as [q|e]; [|discriminate].
  simpl. intro H. inversion H. reflexivity.
Qed.

Lemma resolved_block_as_given (X : Image) (y y2 : option labels) (mode : string)
    (absent : res (option labels)) :
  (if (mode =? "classification")%string then
     match y with
     | Some (YInt k) => n <- Image_len X ;; Ok (Some (YList (repeat k n)))
     | Some y' =>
         n <- Image_len X ;;
         m <- labels_len y' ;;
         if n =? m then Ok (Some y') else Err (label_mismatch y')
     | None => absent
     end
   else Ok None) = Ok y2 ->
  labels_as_given X y mode y2.
Proof.
  intro H. unfold labels_as_given.
  split; [|split; [|split]].
  - intro Hm. rewrite Hm in H. now inversion H.
  - intros l Hm ->. rewrite Hm in H. simpl in H.
    destruct (Image_len X) as [n|e]; [|simpl in H; discriminate H]. simpl in H.
    destruct (n =? length l) eqn:E; [|discriminate H].
    apply Nat.eqb_eq in E. split; [now inversion H | now subst].
  - intros a Hm ->. rewrite Hm in H. simpl in H.
    destruct (Image_len X) as [n|e]; [|simpl in H; discriminate H]. simpl in H.
    destruct (shape a) as [|m rest]; [discriminate H|]. simpl in H.
    destruct (n =? m) eqn:E; [|discriminate H].
    apply Nat.eqb_eq in E. split; [now inversion H | now subst].
  - intros k Hm ->. rewrite Hm in H. simpl in H.
    destruct (Image_len X) as [n|e]; [|simpl in H; discriminate H]. simpl in H.
    exists n. split; [reflexivity|]. now inversion H.
Qed.

(** X4: the labels a run hands back.  Whenever an engine returns a pair,
    its second component is None outside classification mode; in
    classification mode a given sequence comes back as it was given, with
    one label per sample, and a given int as the list of its copies. *)
Theorem returned_labels_are_as_given (X : Image) (y y_torch y_tf : option labels)
    (model : Net) (preprocess_function : option preprocess) (mode : string)
    (num_samples : Z) (sigma : num) (w : world) (g_torch g_tf : ndarray num) :
  (fst (_smooth_grad_torch X y model preprocess_function mode num_samples sigma w)
   = Ok (g_torch, y_torch) ->
   labels_as_given X y mode y_torch)
  /\
  (fst (_smooth_grad_tf X y model preprocess_function mode num_samples sigma w)
   = Ok (g_tf, y_tf) ->
   labels_as_given X y mode y_tf).
Proof.
  split; intro H.
  - apply torch_returns_resolved_labels in H.
    now apply resolved_block_as_given in H.
  - apply tf_returns_resolved_labels in H.
    now apply resolved_block_as_given in H.
Qed.



(** X7: [_guided_bp_torch] checks the labels as the engines do: in
    classification mode a sequence whose length is not the number of samples
    fails the assertion. *)
Theorem guided_bp_label_length_mismatch (X : Image) (y : labels) (n m : nat)
    (model : Net) (preprocess_function : option preprocess) (num_samples : Z)
    (sigma : num) (w : world) :
  Image_len X = Ok n ->
  labels_len y = Ok m ->
  n <> m ->
  _guided_bp_torch X (Some y) model preprocess_function "classification"
    num_samples sigma w
  = (Err (label_mismatch y), w).
Proof.
  intros Hn Hm Hne. unfold _guided_bp_torch.
  apply mbind_lift_err. now apply resolve_torch_mismatch with (n := n) (m := m).
Qed.

End LabelsAndCounts.

(* ================================================================== *)
(** ** Beyond the claims: the axes of an array *)

Lemma nth_error_seq_map {A : Type} (f : nat -> A) (a n p : nat) :
  p < n -> nth_error (map f (seq a n)) p = Some (f (a + p)).
Proof.
  revert a p; induction n as [|n IH]; intros a p Hp; [lia|].
  destruct p as [|p]; simpl.
  - now rewrite Nat.add_0_r.
  - rewrite IH by lia. f_equal. f_equal. lia.
Qed.

Lemma lookup_all_nth_error {A : Type} (l : list A) (ks : list nat) (p : nat) :
  Forall (fun k => k < length l) ks ->
  nth_error (lookup_all l ks) p
  = match nth_error ks p with
    | Some k => nth_error l k
    | None => None
    end.
Proof.
  intro H. revert p. induction H as [|k ks Hk _ IH]; intro p; unfold lookup_all in *; simpl.
  - now destruct p.
  - destruct (nth_error l k) as [v|] eqn:Hv.
    + destruct p as [|p]; simpl; [now rewrite Hv | apply IH].
    + apply nth_error_None in Hv. lia.
Qed.

Lemma lookup_all_length {A : Type} (l : list A) (ks : list nat) :
  Forall (fun k => k < length l) ks -> length (lookup_all l ks) = length ks.
Proof.
  intro H. induction H as [|k ks Hk _ IH]; unfold lookup_all in *; simpl; [reflexivity|].
  destruct (nth_error l k) as [v|] eqn:Hv.
  - simpl. now rewrite IH.
  - apply nth_error_None in Hv. lia.
Qed.

(** The source position of the entry [k] of a (3, h, w) array moved to
    (h, w, 3). *)
Lemma channel_last_source (h w k : nat) :
  k < h * w * 3 ->
  ravel [3; h; w]
        (map (fun d => nth (index_of d [1; 2; 0]) (unravel [h; w; 3] k) 0) (seq 0 3))
  = (k mod 3) * (h * w) + k / 3
  /\ (k mod 3) * (h * w) + k / 3 < 3 * h * w.
Proof.
  intro Hk.
  assert (Hw : 0 < w) by nia.
  cbn [unravel size_of fold_right seq map index_of nth ravel Nat.eqb].
  rewrite !Nat.mul_1_r, !Nat.div_1_r, !Nat.add_0_r.
  pose proof (Nat.div_mod_eq k (w * 3)) as E1.
  pose proof (Nat.mod_upper_bound k (w * 3) ltac:(lia)) as B1.
  pose proof (Nat.div_mod_eq (k mod (w * 3)) 3) as E2.
  pose proof (Nat.mod_upper_bound (k mod (w * 3)) 3 ltac:(lia)) as B2.
  pose proof (Nat.div_mod_eq k 3) as E3.
  pose proof (Nat.mod_upper_bound k 3 ltac:(lia)) as B3.
  set (i := k / (w * 3)) in *. set (r := k mod (w * 3)) in *.
  set (j := r / 3) in *. set (c := r mod 3) in *.
  assert (Hc : k mod 3 = c).
  { symmetry. apply (Nat.mod_unique k 3 (i * w + j) c); [exact B2 | nia]. }
  assert (Hq : k / 3 = i * w + j).
  { symmetry. apply (Nat.div_unique k 3 (i * w + j) c); [exact B2 | nia]. }
  rewrite Hc, Hq. split; [lia|].
  assert (Hi : i < h) by (apply Nat.Div0.div_lt_upper_bound; nia).
  assert (Hj : j < w) by (apply Nat.Div0.div_lt_upper_bound; nia).
  nia.
Qed.

(** The channel-last transposition of a well-formed (3, h, w) array: its
    shape is (h, w, 3) and its entry at (i, j, c) is the entry at (c, i, j)
    of the array. *)
Lemma transpose_channel_last_entry {A : Type} (a : ndarray A) (h w i j c : nat) :
  shape a = [3; h; w] ->
  length (data a) = 3 * h * w ->
  i < h -> j < w -> c < 3 ->
  shape (transpose_axes [1; 2; 0] a) = [h; w; 3]
  /\ length (data (transpose_axes [1; 2; 0] a)) = h * w * 3
  /\ nth_error (data (transpose_axes [1; 2; 0] a)) ((i * w + j) * 3 + c)
     = nth_error (data a) (c * (h * w) + i * w + j).
Proof.
  intros Hs Hl Hi Hj Hc. unfold transpose_axes. rewrite Hs.
  cbn [map nth length shape data].
  assert (Hsize : size_of [h; w; 3] = h * w * 3) by (cbn; lia).
  assert (Hall : Forall (fun k => k < length (data a))
                   (map (fun k =>
                           ravel [3; h; w]
                             (map (fun d => nth (index_of d [1; 2; 0])
                                                (unravel [h; w; 3] k) 0) (seq 0 3)))
                        (seq 0 (size_of [h; w; 3])))).
  { apply Forall_map, Forall_forall. intros k Hk. apply in_seq in Hk.
    rewrite Hsize in Hk. destruct (channel_last_source h w k) as [-> Hb]; lia. }
  split; [reflexivity|]. split.
  - now rewrite (lookup_all_length _ _ Hall), length_map, length_seq.
  - rewrite (lookup_all_nth_error _ _ _ Hall).
    assert (Hk : (i * w + j) * 3 + c < h * w * 3) by nia.
    rewrite Hsize, (nth_error_seq_map _ 0 _ _ Hk). cbn [Nat.add].
    destruct (channel_last_source h w _ Hk) as [-> _].
    f_equal.
    rewrite <- (Nat.mod_unique ((i * w + j) * 3 + c) 3 (i * w + j) c) by lia.
    rewrite <- (Nat.div_unique ((i * w + j) * 3 + c) 3 (i * w + j) c) by lia.
    lia.
Qed.

(* ================================================================== *)
(** ** Beyond the claims: the rescaler *)

Section RescalerEdges.
Context {SC : Scalar}.

(** What [_resize] returns when lines 34-41 are defined. *)
Lemma resize_result (f : Image -> tensor_like) (image : Image) (rest : list nat) :
  Image_shape image = 1 :: rest ->
  data (to_numpy image) <> [] ->
  shape (squeeze (values_of (f image))) <> [] ->
  (hd 0 (shape (squeeze (values_of (f image)))) = 3 ->
   length (shape (squeeze (values_of (f image)))) = 3) ->
  data (channel_last_view (values_of (f image))) <> [] ->
  _resize (Some f) image
  = Ok {| img_data := rescaled (to_numpy image) (channel_last_view (values_of (f image)));
          batched := false;
          channel_last := true |}.
Proof.
  intros Hb Hy Hne H3 Hx. unfold _resize. rewrite Hb.
  cbn [Py.bind shape0 Nat.eqb negb]. rewrite conversion_values.
  cbn [Py.bind]. rewrite channel_last_step by assumption.
  rewrite (np_min_nonempty _ Hy), (np_max_nonempty _ Hy).
  cbn [Py.bind].
  rewrite (np_min_nonempty _ Hx), (np_max_nonempty _ Hx).
  reflexivity.
Qed.

(** X8: a processed array that squeezes to a leading dimension of 3 and to
    any number of axes but three makes [_resize] fail in the transposition. *)
Theorem resize_three_rows_need_three_axes (f : Image -> tensor_like) (image : Image)
    (rest s : list nat) :
  Image_shape image = 1 :: rest ->
  shape (squeeze (values_of (f image))) = 3 :: s ->
  length s <> 2 ->
  _resize (Some f) image = Err (ValueError "axes don't match array").
Proof.
  intros Hb Hs Hl. unfold _resize. rewrite Hb.
  cbn [Py.bind shape0 Nat.eqb negb]. rewrite conversion_values.
  cbn [Py.bind]. rewrite Hs. cbn [Py.bind shape0 Nat.eqb].
  unfold np_transpose. rewrite Hs. cbn [length].
  destruct (Nat.eqb_spec 3 (S (length s))) as [E|_]; [lia | reflexivity].
Qed.

Lemma squeeze_unit_axes {A : Type} (a : ndarray A) :
  Forall (fun d => d = 1) (shape a) -> shape (squeeze a) = [].
Proof.
  unfold squeeze. cbn [shape]. intro H.
  induction H as [|d s -> _ IH]; simpl; [reflexivity | exact IH].
Qed.

(** X9: a processed array all of whose axes have length one, a single value,
    squeezes to no axis at all, and [_resize] fails on reading its leading
    dimension. *)
Theorem resize_single_value_fails (f : Image -> tensor_like) (image : Image)
    (rest : list nat) :
  Image_shape image = 1 :: rest ->
  Forall (fun d => d = 1) (shape (values_of (f image))) ->
  _resize (Some f) image = Err IndexError.
Proof.
  intros Hb H1. unfold _resize. rewrite Hb.
  cbn [Py.bind shape0 Nat.eqb negb]. rewrite conversion_values.
  cbn [Py.bind]. now rewrite (squeeze_unit_axes _ H1).
Qed.

(** X10: a raw image without pixels, with a processed array that passes
    lines 34-36, fails in [np.min] of the raw pixels. *)
Theorem resize_empty_image_fails (f : Image -> tensor_like) (image : Image)
    (rest : list nat) :
  Image_shape image = 1 :: rest ->
  data (to_numpy image) = [] ->
  shape (squeeze (values_of (f image))) <> [] ->
  (hd 0 (shape (squeeze (values_of (f image)))) = 3 ->
   length (shape (squeeze (values_of (f image)))) = 3) ->
  _resize (Some f) image
  = Err (ValueError "zero-size array to reduction operation minimum which has no identity").
Proof.
  intros Hb Hy Hne H3. unfold _resize. rewrite Hb.
  cbn [Py.bind shape0 Nat.eqb negb]. rewrite conversion_values.
  cbn [Py.bind]. rewrite channel_last_step by assumption.
  unfold np_min at 1. now rewrite Hy.
Qed.

(** X11: the kind of value the preprocessing returns, NumPy array, torch
    tensor or tf tensor, does not matter: two preprocessing functions whose
    results hold the same array give the same result, error or image. *)
Theorem resize_reads_values_only (f g : Image -> tensor_like) (image : Image) :
  values_of (f image) = values_of (g image) ->
  _resize (Some f) image = _resize (Some g) image.
Proof.
  intro H. unfold _resize.
  destruct (shape0 (Image_shape image)) as [b|e]; [|reflexivity].
  cbn [Py.bind]. destruct (negb (b =? 1)); [reflexivity|].
  now rewrite !conversion_values, H.
Qed.

Lemma constant_fold_min (v : num) (vs : list num) :
  Forall (fun u => u = v) vs -> fold_left min2 vs v = v.
Proof.
  induction 1 as [|u vs -> _ IH]; simpl; [reflexivity|].
  unfold min2 at 2. now destruct (ltb v v).
Qed.

Lemma constant_fold_max (v : num) (vs : list num) :
  Forall (fun u => u = v) vs -> fold_left max2 vs v = v.
Proof.
  induction 1 as [|u vs -> _ IH]; simpl; [reflexivity|].
  unfold max2 at 2. now destruct (ltb v v).
Qed.

Lemma constant_extrema (v : num) (a : ndarray num) :
  constant_array v a -> min_of a = v /\ max_of a = v.
Proof.
  intros [Hne Hall]. unfold min_of, max_of.
  destruct (data a) as [|u vs]; [congruence|].
  inversion Hall as [|? ? -> Hvs]; subst.
  split; [now apply constant_fold_min | now apply constant_fold_max].
Qed.

Lemma squeeze_channel_first {A : Type} (a : ndarray A) (h w : nat) :
  shape a = [1; 3; h; w] -> h <> 1 -> w <> 1 -> shape (squeeze a) = [3; h; w].
Proof.
  intros Hs Hh Hw. unfold squeeze. cbn [shape]. rewrite Hs. simpl.
  destruct (Nat.eqb_spec h 1); [congruence|].
  destruct (Nat.eqb_spec w 1); [congruence|]. reflexivity.
Qed.

(** X13: a channel-first processed tensor of three channels, shape
    (1, 3, h, w) with h, w >= 2, comes back as an unbatched channel-last
    image of shape (h, w, 3) whose pixel at (i, j, c) is the rescaled value
    of the tensor at (c, i, j). *)
Theorem resize_moves_channels_last (f : Image -> tensor_like) (image : Image)
    (rest : list nat) (h w : nat) :
  Image_shape image = 1 :: rest ->
  data (to_numpy image) <> [] ->
  shape (values_of (f image)) = [1; 3; h; w] ->
  length (data (values_of (f image))) = 3 * h * w ->
  2 <= h -> 2 <= w ->
  exists result,
    _resize (Some f) image = Ok result
    /\ Image_shape result = [h; w; 3]
    /\ batched result = false
    /\ channel_last result = true
    /\ forall i j c, i < h -> j < w -> c < 3 ->
         exists v,
           nth_error (data (values_of (f image))) (c * (h * w) + i * w + j) = Some v
           /\ nth_error (data (to_numpy result)) ((i * w + j) * 3 + c)
              = Some (astype_int
                        (sub (add (mul (rescale_ratio (to_numpy image)
                                          (channel_last_view (values_of (f image)))) v)
                                  (min_of (to_numpy image)))
                             (mul (rescale_ratio (to_numpy image)
                                     (channel_last_view (values_of (f image))))
                                  (min_of (channel_last_view (values_of (f image))))))).
Proof.
  intros Hb Hy Hs Hl Hh Hw.
  pose proof (squeeze_channel_first _ h w Hs ltac:(lia) ltac:(lia)) as Hsq.
  assert (Hview : channel_last_view (values_of (f image))
                  = transpose_axes [1; 2; 0] (squeeze (values_of (f image)))).
  { unfold channel_last_view. now rewrite Hsq. }
  assert (Hentry : forall i j c, i < h -> j < w -> c < 3 ->
             shape (channel_last_view (values_of (f image))) = [h; w; 3]
             /\ length (data (channel_last_view (values_of (f image)))) = h * w * 3
             /\ nth_error (data (channel_last_view (values_of (f image))))
                          ((i * w + j) * 3 + c)
                = nth_error (data (values_of (f image))) (c * (h * w) + i * w + j)).
  { intros i j c Hi Hj Hc. rewrite Hview.
    apply (transpose_channel_last_entry (squeeze (values_of (f image))) h w i j c);
      assumption. }
  destruct (Hentry 0 0 0 ltac:(lia) ltac:(lia) ltac:(lia)) as (Hshape & Hlen & _).
  eexists. split.
  - apply (resize_result f image rest Hb Hy).
    + rewrite Hsq. discriminate.
    + now rewrite Hsq.
    + intro E. rewrite E in Hlen. simpl in Hlen. nia.
  - cbn [Image_shape img_data batched channel_last to_numpy].
    split; [exact Hshape|]. split; [reflexivity|]. split; [reflexivity|].
    intros i j c Hi Hj Hc.
    destruct (Hentry i j c Hi Hj Hc) as (_ & _ & Hnth).
    destruct (nth_error (data (values_of (f image))) (c * (h * w) + i * w + j))
      as [v|] eqn:Hv.
    + exists v. split; [reflexivity|].
      unfold rescaled, amap. cbn [data].
      now rewrite nth_error_map, Hnth.
    + apply nth_error_None in Hv. nia.
Qed.

End RescalerEdges.

(* ================================================================== *)
(** ** Beyond the claims: the hooks *)

Section HookStack.
Context {SC : Scalar}.

(** X14: last in, first out.  The backward hook pairs the incoming gradient
    with the activation the forward hook recorded last, and takes that one
    off the stack: what was recorded before it is what remains, and the
    gradient handed on has the shape of the activation. *)
Theorem hooks_pair_last_in_first_out (stack : list (ndarray num))
    (activations g : ndarray num) (others : list (ndarray num)) :
  shape g = shape activations ->
  exists out,
    _backward_hook (_forward_hook stack activations) (g :: others) = Ok (stack, [out])
    /\ shape out = shape activations
    /\ data out = zip_with mul (data (set_positive_to_one activations))
                               (data (clamp_min0 g)).
Proof.
  intro Hs. unfold _backward_hook, _forward_hook. rewrite rev_app_distr. simpl.
  unfold binop. cbn [shape set_positive_to_one clamp_min0 amap].
  rewrite Hs, list_eqb_refl, removelast_last.
  eexists. split; [reflexivity|]. split; reflexivity.
Qed.

(** X15: the backward hook needs a recorded activation and an incoming
    gradient: with none recorded, or with an empty tuple of gradients, it
    fails with an IndexError. *)
Theorem backward_hook_needs_both (stack _inputs : list (ndarray num)) :
  stack = [] \/ _inputs = [] ->
  _backward_hook stack _inputs = Err IndexError.
Proof.
  unfold _backward_hook. intros [-> | ->]; [reflexivity|].
  now destruct (rev stack).
Qed.

End HookStack.

(* ================================================================== *)
(** ** Beyond the claims: what a run leaves behind *)

Section RunTrace.
Context {SC : Scalar} {RT : Runtime SC}.





End RunTrace.

(* ================================================================== *)
(** ** Beyond the claims: runs without noise *)

Section NoiseFree.
Context {SC : Scalar} {RT : Runtime SC} {EX : ExactScalar SC} {EF : ExactField SC}.

Lemma draws_length (n : nat) (g : rng_state) : length (fst (draws n g)) = n.
Proof.
  revert g; induction n as [|n IH]; intro g; simpl; [reflexivity|].
  destruct (randn_draw g) as [v g1]. specialize (IH g1).
  destruct (draws n g1) as [vs g2]. simpl in *. now rewrite IH.
Qed.

Lemma noise_draws_layout (k : nat) (s : list nat) (g : rng_state) :
  Forall (fun noise => shape noise = s /\ length (data noise) = size_of s)
         (noise_draws k s g).
Proof.
  revert g; induction k as [|k IH]; intro g; simpl; [constructor|].
  pose proof (draws_length (size_of s) g) as Hl.
  destruct (draws (size_of s) g) as [vs g']. constructor; [|apply IH].
  split; [reflexivity | exact Hl].
Qed.

Lemma zip_without_noise_torch (l1 l2 : list num) :
  length l2 = length l1 ->
  zip_with (fun a n => to_torch_dtype (add a (mul n zero))) l1 l2
  = map to_torch_dtype l1.
Proof.
  revert l2; induction l1 as [|a l1 IH]; intros [|n l2] H; simpl in *;
    try discriminate; [reflexivity|].
  rewrite mul_zero_r, add_zero_r, IH by lia. reflexivity.
Qed.

Lemma zip_without_noise_tf (l1 l2 : list num) :
  length l2 = length l1 ->
  zip_with (fun n a => to_tf_float32 (add (mul n zero) a)) l2 l1
  = map to_tf_float32 l1.
Proof.
  revert l2; induction l1 as [|a l1 IH]; intros [|n l2] H; simpl in *;
    try discriminate; [reflexivity|].
  rewrite mul_zero_r, add_zero_l, IH by lia. reflexivity.
Qed.

Lemma map_constant {A B : Type} (f : A -> B) (c : B) (l : list A) :
  Forall (fun a => f a = c) l -> map f l = repeat c (length l).
Proof.
  induction 1 as [|a l Ha _ IH]; simpl; [reflexivity|]. now rewrite Ha, IH.
Qed.

Lemma mapM_repeat {A B : Type} (f : A -> res B) (a : A) (b : B) (k : nat) :
  f a = Ok b -> mapM f (repeat a k) = Ok (repeat b k).
Proof.
  intro H. induction k as [|k IH]; simpl; [reflexivity|]. now rewrite H, IH.
Qed.

(** Without noise every perturbed input is the input itself. *)
Lemma perturbed_torch_without_noise (input : ndarray num) (k : nat) (g : rng_state) :
  well_formed input ->
  amap to_torch_dtype input = input ->
  map (perturbed_torch input zero) (noise_draws k (shape input) g) = repeat input k.
Proof.
  intros Hwf Hfix.
  rewrite <- (noise_draws_length k (shape input) g) at 2.
  apply map_constant.
  eapply Forall_impl; [|apply noise_draws_layout].
  intros noise [Hs Hl]. unfold perturbed_torch.
  rewrite zip_without_noise_torch by (rewrite Hl; symmetry; exact Hwf).
  exact Hfix.
Qed.

Lemma perturbed_tf_without_noise (input : ndarray num) (k : nat) (g : rng_state) :
  well_formed input ->
  amap to_tf_float32 input = input ->
  map (perturbed_tf input zero) (noise_draws k (shape input) g) = repeat input k.
Proof.
  intros Hwf Hfix.
  rewrite <- (noise_draws_length k (shape input) g) at 2.
  apply map_constant.
  eapply Forall_impl; [|apply noise_draws_layout].
  intros noise [Hs Hl]. unfold perturbed_tf.
  rewrite zip_without_noise_tf by (rewrite Hl; symmetry; exact Hwf).
  rewrite Hs. exact Hfix.
Qed.

(** The scale of the noise is 0 when [sigma] is 0 and when the input is
    constant. *)
Lemma noise_scale_zero (sigma v : num) (input : ndarray num) :
  sigma = zero \/ constant_array v input ->
  sigma_effective sigma input = zero.
Proof.
  unfold sigma_effective. intros [-> | Hc].
  - apply mul_zero_l.
  - destruct (constant_extrema v input Hc) as [-> ->].
    now rewrite sub_diag, mul_zero_r.
Qed.

(** X17: no noise.  In exact arithmetic, when [sigma] is 0 or the working
    input is constant, the noise drawn is scaled by 0: every one of the
    K >= 1 gradients is the gradient at the input itself, and the result is
    the mean of K copies of it, whatever the random state of the call. *)
Theorem run_without_noise (X : Image) (y y_torch y_tf : option labels)
    (model : Net) (preprocess_function : option preprocess) (mode : string)
    (K : Z) (sigma v : num) (w : world) (g_torch g_tf : ndarray num) :
  (1 <= K)%Z ->
  (sigma = zero \/ constant_array v (torch_input preprocess_function X) ->
   _resolve_labels_torch X y mode (forward model (torch_input preprocess_function X))
   = Ok y_torch ->
   shape (forward model (torch_input preprocess_function X)) <> [] ->
   data (torch_input preprocess_function X) <> [] ->
   length (shape (torch_input preprocess_function X)) = 4 ->
   well_formed (torch_input preprocess_function X) ->
   amap to_torch_dtype (torch_input preprocess_function X)
   = torch_input preprocess_function X ->
   torch_gradient_at model
     (sample_index (forward model (torch_input preprocess_function X))) y_torch
     (torch_input preprocess_function X) = Ok g_torch ->
   same_layout (torch_input preprocess_function X) g_torch ->
   fst (_smooth_grad_torch X y model preprocess_function mode K sigma w)
   = Ok (transpose_axes [0; 2; 3; 1] (arithmetic_mean (repeat g_torch (Z.to_nat K))),
         y_torch))
  /\
  (sigma = zero \/ constant_array v (tf_input preprocess_function X) ->
   _resolve_labels_tf X y mode model (tf_input preprocess_function X) = Ok y_tf ->
   data (tf_input preprocess_function X) <> [] ->
   well_formed (tf_input preprocess_function X) ->
   amap to_tf_float32 (tf_input preprocess_function X) = tf_input preprocess_function X ->
   tf_gradient_at model y_tf (tf_input preprocess_function X) = Ok g_tf ->
   same_layout (tf_input preprocess_function X) g_tf ->
   fst (_smooth_grad_tf X y model preprocess_function mode K sigma w)
   = Ok (arithmetic_mean (repeat g_tf (Z.to_nat K)), y_tf)).
Proof.
  intro HK. split.
  - intros Hz Hy Hout Hne H4 Hwf Hfix Hg Hlay.
    apply torch_engine_run; try assumption.
    + unfold torch_gradients.
      rewrite (noise_scale_zero sigma v _ Hz).
      rewrite (perturbed_torch_without_noise _ _ _ Hwf Hfix).
      now apply mapM_repeat.
    + apply Forall_forall. intros g Hin. apply repeat_spec in Hin. now subst.
  - intros Hz Hy Hne Hwf Hfix Hg Hlay.
    apply tf_engine_run; try assumption.
    + unfold tf_gradients.
      rewrite (noise_scale_zero sigma v _ Hz).
      rewrite (perturbed_tf_without_noise _ _ _ Hwf Hfix).
      now apply mapM_repeat.
    + apply Forall_forall. intros g Hin. apply repeat_spec in Hin. now subst.
Qed.

Lemma mean_of_one (g : ndarray num) : arithmetic_mean [g] = g.
Proof.
  unfold arithmetic_mean, mean_at, sum_at. cbn [map fold_left length Z.of_nat].
  destruct g as [s l]. cbn [shape data]. f_equal.
  transitivity (map (fun v : num => v) l); [|apply map_id].
  rewrite (map_nth_seq (fun v => v) zero l).
  apply map_ext. intro p.
  change (Z.pos (Pos.of_succ_nat 0)) with 1%Z.
  now rewrite add_zero_l, div_one.
Qed.

(** X18: one sample and no noise.  In exact arithmetic, with [sigma] 0 and
    [num_samples] 1 the tf engine returns the gradient at the unperturbed
    input, and the torch engine that gradient moved to channel-last. *)
Theorem single_sample_without_noise (X : Image) (y y_torch y_tf : option labels)
    (model : Net) (preprocess_function : option preprocess) (mode : string)
    (w : world) (g_torch g_tf : ndarray num) :
  (_resolve_labels_torch X y mode (forward model (torch_input preprocess_function X))
   = Ok y_torch ->
   shape (forward model (torch_input preprocess_function X)) <> [] ->
   data (torch_input preprocess_function X) <> [] ->
   length (shape (torch_input preprocess_function X)) = 4 ->
   well_formed (torch_input preprocess_function X) ->
   amap to_torch_dtype (torch_input preprocess_function X)
   = torch_input preprocess_function X ->
   torch_gradient_at model
     (sample_index (forward model (torch_input preprocess_function X))) y_torch
     (torch_input preprocess_function X) = Ok g_torch ->
   same_layout (torch_input preprocess_function X) g_torch ->
   fst (_smooth_grad_torch X y model preprocess_function mode 1 zero w)
   = Ok (transpose_axes [0; 2; 3; 1] g_torch, y_torch))
  /\
  (_resolve_labels_tf X y mode model (tf_input preprocess_function X) = Ok y_tf ->
   data (tf_input preprocess_function X) <> [] ->
   well_formed (tf_input preprocess_function X) ->
   amap to_tf_float32 (tf_input preprocess_function X) = tf_input preprocess_function X ->
   tf_gradient_at model y_tf (tf_input preprocess_function X) = Ok g_tf ->
   same_layout (tf_input preprocess_function X) g_tf ->
   fst (_smooth_grad_tf X y model preprocess_function mode 1 zero w)
   = Ok (g_tf, y_tf)).
Proof.
  split.
  - intros Hy Hout Hne H4 Hwf Hfix Hg Hlay.
    rewrite <- (mean_of_one g_torch).
    apply (torch_engine_run X y y_torch model preprocess_function mode 1 zero w
             [g_torch]); try assumption; try lia.
    + unfold torch_gradients.
      rewrite (noise_scale_zero zero zero _ (or_introl eq_refl)).
      rewrite (perturbed_torch_without_noise _ _ _ Hwf Hfix).
      now apply (mapM_repeat _ _ _ 1).
    + now constructor.
  - intros Hy Hne Hwf Hfix Hg Hlay.
    rewrite <- (mean_of_one g_tf).
    apply (tf_engine_run X y y_tf model preprocess_function mode 1 zero w [g_tf]);
      try assumption; try lia.
    + unfold tf_gradients.
      rewrite (noise_scale_zero zero zero _ (or_introl eq_refl)).
      rewrite (perturbed_tf_without_noise _ _ _ Hwf Hfix).
      now apply (mapM_repeat _ _ _ 1).
    + now constructor.
Qed.

End NoiseFree.

(* ================================================================== *)
(** ** Beyond the claims: which outputs are differentiated *)

Lemma mapM_Forall_ok {A B : Type} (P : A -> Prop) (g : A -> res B) (g' : A -> B)
    (l : list A) :
  (forall a, P a -> g a = Ok (g' a)) -> Forall P l -> mapM g l = Ok (map g' l).
Proof.
  intros Hg H. induction H as [|a l Ha _ IH]; simpl; [reflexivity|].
  now rewrite (Hg a Ha), IH.
Qed.

Lemma slice_one {A : Type} (l : list A) (s : nat) (v : A) :
  nth_error l s = Some v -> slice l s 1 = [v].
Proof.
  unfold slice. revert l; induction s as [|s IH]; intros [|a l] H; simpl in *;
    try discriminate.
  - now injection H as ->.
  - now apply IH.
Qed.

Lemma concat_singletons {A B : Type} (f : A -> B) (l : list A) :
  concat (map (fun a => [f a]) l) = map f l.
Proof.
  induction l as [|a l IH]; simpl; [reflexivity|]. now rewrite IH.
Qed.

Lemma concat_rows_of_singletons {A B C : Type} (f : A -> B -> C) (l : list B)
    (rows : list A) :
  concat (concat (map (fun i => map (fun k => [f i k]) l) rows))
  = concat (map (fun i => map (f i) l) rows).
Proof.
  induction rows as [|i rows IH]; simpl; [reflexivity|].
  now rewrite concat_app, concat_singletons, IH.
Qed.

Lemma nth_error_concat_rows {B : Type} (rows : nat -> list B) (m a n i j : nat) :
  (forall i', length (rows i') = m) ->
  i < n -> j < m ->
  nth_error (concat (map rows (seq a n))) (i * m + j) = nth_error (rows (a + i)) j.
Proof.
  intros Hrows. revert a i. induction n as [|n IH]; intros a i Hi Hj; [lia|].
  simpl. destruct i as [|i].
  - rewrite Nat.add_0_r. simpl. rewrite nth_error_app1 by (rewrite Hrows; lia).
    reflexivity.
  - rewrite nth_error_app2 by (rewrite Hrows; nia).
    rewrite Hrows. replace (S i * m + j - m) with (i * m + j) by nia.
    rewrite (IH (S a) i) by lia. f_equal. f_equal. lia.
Qed.

Lemma nth_error_combine {A B : Type} (l1 : list A) (l2 : list B) (i : nat)
    (a : A) (b : B) :
  nth_error l1 i = Some a -> nth_error l2 i = Some b ->
  nth_error (combine l1 l2) i = Some (a, b).
Proof.
  revert l2 i; induction l1 as [|a1 l1 IH]; intros [|b2 l2] [|i] H1 H2;
    simpl in *; try discriminate.
  - injection H1 as ->. injection H2 as ->. reflexivity.
  - now apply IH.
Qed.

Lemma lookup_all_suffix {A : Type} (pre l : list A) :
  lookup_all (pre ++ l) (seq (length pre) (length l)) = l.
Proof.
  revert pre; induction l as [|v l IH]; intro pre; [reflexivity|].
  unfold lookup_all in *. simpl.
  rewrite nth_error_app2, Nat.sub_diag by lia. simpl. f_equal.
  specialize (IH (pre ++ [v])).
  rewrite <- List.app_assoc, length_app in IH. simpl in IH.
  now rewrite Nat.add_1_r in IH.
Qed.

Lemma lookup_all_seq {A : Type} (l : list A) :
  lookup_all l (seq 0 (length l)) = l.
Proof. exact (lookup_all_suffix [] l). Qed.

(** Broadcasting a vector to its own shape leaves it as it is. *)
Lemma broadcast_to_vector {A : Type} (a : ndarray A) (n : nat) :
  shape a = [n] -> length (data a) = n -> broadcast_to a [n] = data a.
Proof.
  intros Hs Hl. unfold broadcast_to. rewrite Hs.
  cbn [length Nat.sub skipn unravel size_of fold_right clamp_unit_axes ravel].
  rewrite <- (lookup_all_seq (data a)) at 2. rewrite Hl. f_equal.
  rewrite Nat.mul_1_r.
  rewrite <- (map_id (seq 0 n)) at 2. apply map_ext_in.
  intros k Hk. apply in_seq in Hk.
  rewrite Nat.div_1_r, Nat.mul_1_r, Nat.add_0_r.
  destruct (Nat.eqb_spec n 1); lia.
Qed.

Lemma broadcast_shapes_vector (n : nat) : broadcast_shapes [n] [n] = Some [n].
Proof.
  unfold broadcast_shapes. simpl. now rewrite Nat.eqb_refl.
Qed.

Lemma wrap_index_sample (i n : nat) : i < n -> wrap_index (Z.of_nat i) n = Ok i.
Proof.
  intro Hi. unfold wrap_index.
  destruct (Z.leb_spec 0 (Z.of_nat i)), (Z.ltb_spec (Z.of_nat i) (Z.of_nat n));
    cbn [andb]; try lia.
  now rewrite Nat2Z.id.
Qed.

Lemma wrap_index_label (k : Z) (c : nat) :
  (- Z.of_nat c <= k < Z.of_nat c)%Z ->
  wrap_index k c = Ok (wrapped k c) /\ wrapped k c < c.
Proof.
  intro Hk. unfold wrap_index, wrapped.
  destruct (Z.leb_spec 0 k), (Z.ltb_spec k (Z.of_nat c)), (Z.ltb_spec k 0),
    (Z.leb_spec (- Z.of_nat c) k); cbn [andb]; try lia; split; try reflexivity; lia.
Qed.

Section Selection.
Context {SC : Scalar}.

(** X19: the outputs the torch engine differentiates.  For a batch x classes
    output and one label per sample, each in [-classes, classes), there is
    one selected output per sample: the score of sample i at its own
    label, a negative label counting from the last class. *)
Theorem torch_selects_own_label (model : Net) (x : ndarray num) (n c : nat)
    (l : list Z) :
  shape (forward model x) = [n; c] ->
  length (data (forward model x)) = n * c ->
  length l = n ->
  Forall (fun k => (- Z.of_nat c <= k < Z.of_nat c)%Z) l ->
  exists outs,
    torch_selected model (arange n) (Some (YList l)) x = Ok outs
    /\ length outs = n
    /\ forall i k, nth_error l i = Some k ->
         exists o,
           nth_error (data (forward model x)) (i * c + wrapped k c) = Some o
           /\ nth_error outs i = Some {| shape := []; data := [o] |}.
Proof.
  intros Hs Hwf Hl Hall.
  set (d := data (forward model x)) in *.
  set (pick := fun ij : Z * Z =>
                 nth (Z.to_nat (fst ij) * c + wrapped (snd ij) c) d zero).
  set (pairs := combine (map Z.of_nat (seq 0 n)) l).
  assert (Hpairs : forall i k, nth_error l i = Some k ->
                     nth_error pairs i = Some (Z.of_nat i, k) /\ i < n).
  { intros i k Hk.
    assert (Hi : i < n) by (rewrite <- Hl; apply nth_error_Some; congruence).
    split; [|exact Hi]. unfold pairs.
    apply nth_error_combine; [|exact Hk].
    now rewrite (nth_error_seq_map _ 0 n i Hi). }
  assert (Hinrange : Forall (fun ij : Z * Z =>
                        (exists i, fst ij = Z.of_nat i /\ i < n)
                        /\ (- Z.of_nat c <= snd ij < Z.of_nat c)%Z) pairs).
  { apply Forall_forall. intros [a k] Hin. unfold pairs in Hin.
    pose proof (in_combine_l _ _ _ _ Hin) as Ha.
    pose proof (in_combine_r _ _ _ _ Hin) as Hk.
    apply in_map_iff in Ha. destruct Ha as (i & <- & Hi). apply in_seq in Hi.
    rewrite Forall_forall in Hall. split; [exists i; split; [reflexivity | lia]|].
    now apply Hall. }
  assert (Hblocks :
            mapM (fun ij : Z * Z =>
                    i <- wrap_index (fst ij) n ;;
                    j <- wrap_index (snd ij) c ;;
                    Ok (slice d ((i * c + j) * size_of []) (size_of [])))
                 pairs
            = Ok (map (fun ij => [pick ij]) pairs)).
  { eapply mapM_Forall_ok; [|exact Hinrange].
    intros [a k] [(i & Ha & Hi) Hk]. cbn [fst snd] in *.
    subst a. rewrite (wrap_index_sample i n Hi).
    destruct (wrap_index_label k c Hk) as [-> Hw]. cbn [Py.bind size_of fold_right].
    rewrite Nat.mul_1_r. f_equal. apply slice_one.
    unfold pick. cbn [fst snd]. rewrite Nat2Z.id.
    apply nth_error_nth'. rewrite Hwf. nia. }
  unfold torch_selected, index_pairs. fold d. rewrite Hs.
  cbn [labels_index shape arange]. rewrite Hl, broadcast_shapes_vector.
  rewrite (broadcast_to_vector (arange n) n eq_refl)
    by (cbn [arange data]; now rewrite length_map, length_seq).
  rewrite (broadcast_to_vector {| shape := [n]; data := l |} n eq_refl Hl).
  cbn [arange data]. fold pairs. rewrite Hblocks. cbn [Py.bind].
  rewrite concat_singletons. unfold unbind. cbn [shape app data size_of fold_right].
  eexists. split; [reflexivity|]. split.
  - now rewrite length_map, length_seq.
  - intros i k Hk. destruct (Hpairs i k Hk) as [Hp Hi].
    exists (pick (Z.of_nat i, k)). split.
    + unfold pick. cbn [fst snd]. rewrite Nat2Z.id.
      apply nth_error_nth'. rewrite Hwf.
      rewrite Forall_forall in Hall.
      destruct (wrap_index_label k c (Hall k (nth_error_In _ _ Hk))) as [_ Hw]. nia.
    + rewrite (nth_error_seq_map _ 0 n i Hi). cbn [Nat.add]. do 2 f_equal.
      rewrite Nat.mul_1_r. apply slice_one.
      now rewrite nth_error_map, Hp.
Qed.

(** X20: the outputs the tf engine differentiates.  For a batch x classes
    output and labels in [0, classes), the selection has one entry per
    sample and per label: the entry for sample i and the j-th label is the
    score of sample i at that label, whichever sample the label was meant
    for. *)
Theorem tf_selects_every_pair (model : Net) (x : ndarray num) (n c : nat) (l : list Z) :
  shape (forward model x) = [n; c] ->
  length (data (forward model x)) = n * c ->
  Forall (fun k => (0 <= k < Z.of_nat c)%Z) l ->
  exists sel,
    tf_selected model (Some (YList l)) x = Ok sel
    /\ shape sel = [n * length l]
    /\ forall i j k, i < n -> nth_error l j = Some k ->
         nth_error (data sel) (i * length l + j)
         = nth_error (data (forward model x)) (i * c + Z.to_nat k).
Proof.
  intros Hs Hwf Hall.
  set (d := data (forward model x)) in *.
  set (entry := fun (i : nat) (k : Z) => nth (i * c + Z.to_nat k) d zero).
  assert (Hrow : forall i, i < n ->
            mapM (fun j : Z =>
                    if ((0 <=? j) && (j <? Z.of_nat c))%Z
                    then Ok (slice d ((i * c + Z.to_nat j) * size_of []) (size_of []))
                    else Err InvalidArgumentError) l
            = Ok (map (fun k => [entry i k]) l)).
  { intros i Hi. eapply mapM_Forall_ok; [|exact Hall].
    intros k Hk. cbn beta in Hk.
    destruct (Z.leb_spec 0 k), (Z.ltb_spec k (Z.of_nat c)); cbn [andb]; try lia.
    cbn [size_of fold_right]. rewrite Nat.mul_1_r. f_equal. apply slice_one.
    apply nth_error_nth'. rewrite Hwf. nia. }
  assert (Hrows :
            mapM (fun i =>
                    mapM (fun j : Z =>
                            if ((0 <=? j) && (j <? Z.of_nat c))%Z
                            then Ok (slice d ((i * c + Z.to_nat j) * size_of [])
                                           (size_of []))
                            else Err InvalidArgumentError) l)
                 (seq 0 n)
            = Ok (map (fun i => map (fun k => [entry i k]) l) (seq 0 n))).
  { apply (mapM_Forall_ok (fun i => i < n)); [exact Hrow|].
    apply Forall_forall. intros i Hi. apply in_seq in Hi. lia. }
  unfold tf_selected, gather_axis1. fold d. rewrite Hs.
  cbn [labels_index data shape]. rewrite Hrows. cbn [Py.bind].
  eexists. split; [reflexivity|].
  assert (Hdata : concat (concat (map (fun i => map (fun k => [entry i k]) l) (seq 0 n)))
                  = concat (map (fun i => map (entry i) l) (seq 0 n))).
  { apply concat_rows_of_singletons. }
  unfold flatten. cbn [shape data]. rewrite Hdata. split.
  - f_equal. clear. induction n as [|n IH] using nat_ind.
    + reflexivity.
    + rewrite seq_S, map_app, concat_app, length_app, IH. simpl.
      rewrite app_nil_r, length_map. lia.
  - intros i j k Hi Hk.
    assert (Hj : j < length l) by (apply nth_error_Some; congruence).
    rewrite (nth_error_concat_rows (fun i => map (entry i) l) (length l) 0 n i j);
      [|intro; apply length_map|exact Hi|exact Hj].
    cbn [Nat.add]. rewrite nth_error_map, Hk. cbn [option_map].
    symmetry. unfold entry. apply nth_error_nth'. rewrite Hwf.
    rewrite Forall_forall in Hall. pose proof (Hall k (nth_error_In _ _ Hk)). nia.
Qed.

End Selection.

(* ================================================================== *)
(** ** Beyond the claims: the definitions at work *)

Lemma Qc_field : ExactField QcScalar.
Proof.
  constructor; simpl.
  - apply Qcplus_0_l.
  - apply Qcplus_0_r.
  - intro x. unfold Qcminus. apply Qcplus_opp_r.
  - intro x. change (Q2Qc (inject_Z 1)) with 1%Qc. field. discriminate.
Qed.

Lemma smooth_grad_prefers_torch_witness :
  smooth_grad small_image None (TorchModule "torch.nn.Linear" (weighted_scores 1)) None
    "classification" 2 (qc 1) world0
  = _smooth_grad_torch small_image None (weighted_scores 1) None "classification"
      2 (qc 1)
      {| rng := rng world0;
         log := log world0 ++ [IsTorchAvailable; IsInstance "torch.nn.Module"] |}.
Proof.
  apply (smooth_grad_prefers_torch small_image None "torch.nn.Linear"
           (weighted_scores 1) None "classification" 2 (qc 1) world0).
  reflexivity.
Defined.

Lemma smooth_grad_falls_back_to_tf_witness :
  smooth_grad small_image None (KerasModel "keras.Sequential" (weighted_scores 1)) None
    "classification" 2 (qc 1) world0
  = _smooth_grad_tf small_image None (weighted_scores 1) None "classification"
      2 (qc 1)
      {| rng := rng world0;
         log := log world0
                ++ [IsTorchAvailable]
                ++ (if torch_installed then [IsInstance "torch.nn.Module"] else [])
                ++ [IsTfAvailable; IsInstance "tf.keras.Model"] |}.
Proof.
  apply (smooth_grad_falls_back_to_tf small_image None "keras.Sequential"
           (weighted_scores 1) None "classification" 2 (qc 1) world0).
  reflexivity.
Defined.

Example dispatch_trace_of_a_keras_model :
  map (fun e => match e with
                | IsTorchAvailable => 1 | IsInstance _ => 2 | IsTfAvailable => 3
                | Randn _ => 4 | Backward _ => 5 | _ => 0
                end)
      (log (snd (smooth_grad small_image None
                   (KerasModel "keras.Sequential" (weighted_scores 1)) None
                   "classification" 1 (qc 1) world0)))
  = [1; 2; 3; 2; 4; 5].
Proof. vm_compute. reflexivity. Qed.

Lemma labels_are_ignored_outside_classification_witness :
  _smooth_grad_torch small_image (Some (YList [0; 1; 1]%Z)) (weighted_scores 1) None
    "regression" 2 (qc 1) world0
  = _smooth_grad_torch small_image None (weighted_scores 1) None
      "regression" 2 (qc 1) world0
  /\
  _smooth_grad_tf small_image (Some (YList [0; 1; 1]%Z)) (weighted_scores 1) None
    "regression" 2 (qc 1) world0
  = _smooth_grad_tf small_image None (weighted_scores 1) None
      "regression" 2 (qc 1) world0.
Proof.
  apply (labels_are_ignored_outside_classification small_image
           (Some (YList [0; 1; 1]%Z)) (weighted_scores 1) None "regression"
           2 (qc 1) world0).
  reflexivity.
Defined.

(** Outside classification mode the summed outputs 3 * (weighted sum) + 1
    are differentiated, and no labels come back. *)
Example regression_values :
  match fst (_smooth_grad_tf small_image (Some (YInt 1)) (weighted_scores 1) None
               "regression" 2 (qc 1) world0) with
  | Ok (g, y) => Some (shape g, map this (data g), y)
  | Err _ => None
  end
  = Some ([1; 2; 1; 2], [3; 6; 9; 12]%Q, None).
Proof. vm_compute. reflexivity. Qed.

Lemma returned_labels_are_as_given_witness :
  exists g_torch y_torch g_tf y_tf,
    (fst (_smooth_grad_torch small_image (Some (YInt 1)) (weighted_scores 1) None
            "classification" 2 (qc 1) world0) = Ok (g_torch, y_torch)
     /\ labels_as_given small_image (Some (YInt 1)) "classification" y_torch)
    /\
    (fst (_smooth_grad_tf small_image (Some (YInt 1)) (weighted_scores 1) None
            "classification" 2 (qc 1) world0) = Ok (g_tf, y_tf)
     /\ labels_as_given small_image (Some (YInt 1)) "classification" y_tf).
Proof.
  do 4 eexists.
  split; (split; [vm_compute; reflexivity|]).
  - eapply (proj1 (returned_labels_are_as_given small_image (Some (YInt 1)) _ None
                     (weighted_scores 1) None "classification" 2 (qc 1) world0
                     _ {| shape := []; data := [] |})).
    vm_compute. reflexivity.
  - eapply (proj2 (returned_labels_are_as_given small_image (Some (YInt 1)) None _
                     (weighted_scores 1) None "classification" 2 (qc 1) world0
                     {| shape := []; data := [] |} _)).
    vm_compute. reflexivity.
Defined.



Lemma guided_bp_label_length_mismatch_witness :
  _guided_bp_torch small_image (Some (YList [0; 1]%Z)) (weighted_scores 1) None
    "classification" 2 (qc 1) world0
  = (Err (label_mismatch (YList [0; 1]%Z)), world0).
Proof.
  apply (guided_bp_label_length_mismatch small_image (YList [0; 1]%Z) 1 2
           (weighted_scores 1) None 2 (qc 1) world0).
  - reflexivity.
  - reflexivity.
  - lia.
Defined.

Lemma resize_three_rows_need_three_axes_witness :
  _resize (Some to_channel_first) small_image
  = Err (ValueError "axes don't match array").
Proof.
  apply (resize_three_rows_need_three_axes to_channel_first small_image [2; 1; 2] [2]).
  - reflexivity.
  - reflexivity.
  - discriminate.
Defined.

Lemma resize_single_value_fails_witness :
  _resize (Some to_single_value) small_image = Err IndexError.
Proof.
  apply (resize_single_value_fails to_single_value small_image [2; 1; 2]).
  - reflexivity.
  - repeat constructor.
Defined.

Lemma resize_empty_image_fails_witness :
  _resize (Some to_three_channels) empty_image
  = Err (ValueError "zero-size array to reduction operation minimum which has no identity").
Proof.
  apply (resize_empty_image_fails to_three_channels empty_image [0; 0; 3]).
  - reflexivity.
  - reflexivity.
  - discriminate.
  - reflexivity.
Defined.

Lemma resize_reads_values_only_witness :
  _resize (Some (three_channels_as (@TfTensor QcScalar))) small_image
  = _resize (Some (three_channels_as (@NpArray QcScalar))) small_image.
Proof.
  apply (resize_reads_values_only (three_channels_as (@TfTensor QcScalar))
           (three_channels_as (@NpArray QcScalar)) small_image).
  reflexivity.
Defined.

Lemma resize_moves_channels_last_witness :
  exists result,
    _resize (Some to_three_channels) small_image = Ok result
    /\ Image_shape result = [2; 2; 3]
    /\ batched result = false
    /\ channel_last result = true
    /\ forall i j c, i < 2 -> j < 2 -> c < 3 ->
         exists v,
           nth_error (data (values_of (to_three_channels small_image)))
                     (c * (2 * 2) + i * 2 + j) = Some v
           /\ nth_error (data (to_numpy result)) ((i * 2 + j) * 3 + c)
              = Some (astype_int
                        (sub (add (mul (rescale_ratio (to_numpy small_image)
                                          (channel_last_view
                                             (values_of (to_three_channels small_image))))
                                       v)
                                  (min_of (to_numpy small_image)))
                             (mul (rescale_ratio (to_numpy small_image)
                                     (channel_last_view
                                        (values_of (to_three_channels small_image))))
                                  (min_of (channel_last_view
                                             (values_of (to_three_channels small_image))))))).
Proof.
  apply (resize_moves_channels_last to_three_channels small_image [2; 1; 2] 2 2).
  - reflexivity.
  - discriminate.
  - reflexivity.
  - reflexivity.
  - lia.
  - lia.
Defined.

Lemma hooks_pair_last_in_first_out_witness :
  exists out,
    _backward_hook
      (_forward_hook [{| shape := [1]; data := [qc 9] |}]
                     {| shape := [2]; data := map qc [0; 7]%Z |})
      [{| shape := [2]; data := map qc [3; 3]%Z |}]
    = Ok ([{| shape := [1]; data := [qc 9] |}], [out])
    /\ shape out = [2]
    /\ data out
       = zip_with mul
           (data (set_positive_to_one {| shape := [2]; data := map qc [0; 7]%Z |}))
           (data (clamp_min0 {| shape := [2]; data := map qc [3; 3]%Z |})).
Proof.
  apply (hooks_pair_last_in_first_out (SC := QcScalar) [{| shape := [1]; data := [qc 9] |}]
           {| shape := [2]; data := map qc [0; 7]%Z |}
           {| shape := [2]; data := map qc [3; 3]%Z |} []).
  reflexivity.
Defined.

Lemma backward_hook_needs_both_witness :
  _backward_hook [] [{| shape := [2]; data := map qc [3; 3]%Z |}] = Err IndexError.
Proof.
  apply (backward_hook_needs_both (SC := QcScalar) [] [{| shape := [2]; data := map qc [3; 3]%Z |}]).
  left. reflexivity.
Defined.


(** Two arrays of four draws each: the random state, a counter, ends at 8. *)
Example random_state_after_two_samples :
  rng (snd (_smooth_grad_tf small_image None (weighted_scores 1) None
              "classification" 2 (qc 1) world0)) = 8.
Proof. vm_compute. reflexivity. Qed.

(** A constant image receives no noise, whatever [sigma] is. *)
Lemma run_without_noise_witness :
  fst (_smooth_grad_torch flat_image None (weighted_scores 1) None
         "classification" 2 (qc 5) world0)
  = Ok (transpose_axes [0; 2; 3; 1]
          (arithmetic_mean
             (repeat {| shape := [1; 1; 1; 4]; data := map qc [2; 4; 6; 8]%Z |}
                     (Z.to_nat 2))),
        Some (YArray {| shape := [1]; data := [1%Z] |}))
  /\
  fst (_smooth_grad_tf flat_image None (weighted_scores 1) None
         "classification" 2 (qc 5) world0)
  = Ok (arithmetic_mean
          (repeat {| shape := [1; 1; 1; 4]; data := map qc [2; 4; 6; 8]%Z |}
                  (Z.to_nat 2)),
        Some (YArray {| shape := [1]; data := [1%Z] |})).
Proof.
  destruct (run_without_noise (EX := Qc_exact) (EF := Qc_field) flat_image None
              (Some (YArray {| shape := [1]; data := [1%Z] |}))
              (Some (YArray {| shape := [1]; data := [1%Z] |}))
              (weighted_scores 1) None "classification" 2 (qc 5) (qc 3) world0
              {| shape := [1; 1; 1; 4]; data := map qc [2; 4; 6; 8]%Z |}
              {| shape := [1; 1; 1; 4]; data := map qc [2; 4; 6; 8]%Z |}
              ltac:(lia)) as [Htorch Htf].
  split.
  - apply Htorch.
    + right. split; [discriminate | repeat constructor].
    + vm_compute. reflexivity.
    + discriminate.
    + discriminate.
    + reflexivity.
    + reflexivity.
    + reflexivity.
    + vm_compute. reflexivity.
    + split; reflexivity.
  - apply Htf.
    + right. split; [discriminate | repeat constructor].
    + vm_compute. reflexivity.
    + discriminate.
    + reflexivity.
    + reflexivity.
    + vm_compute. reflexivity.
    + split; reflexivity.
Defined.

Lemma single_sample_without_noise_witness :
  fst (_smooth_grad_torch small_image None (weighted_scores 1) None
         "classification" 1 zero world0)
  = Ok (transpose_axes [0; 2; 3; 1]
          {| shape := [1; 2; 1; 2]; data := map qc [2; 4; 6; 8]%Z |},
        Some (YArray {| shape := [1]; data := [1%Z] |}))
  /\
  fst (_smooth_grad_tf small_image None (weighted_scores 1) None
         "classification" 1 zero world0)
  = Ok ({| shape := [1; 2; 1; 2]; data := map qc [2; 4; 6; 8]%Z |},
        Some (YArray {| shape := [1]; data := [1%Z] |})).
Proof.
  destruct (single_sample_without_noise (EX := Qc_exact) (EF := Qc_field) small_image
              None
              (Some (YArray {| shape := [1]; data := [1%Z] |}))
              (Some (YArray {| shape := [1]; data := [1%Z] |}))
              (weighted_scores 1) None "classification" world0
              {| shape := [1; 2; 1; 2]; data := map qc [2; 4; 6; 8]%Z |}
              {| shape := [1; 2; 1; 2]; data := map qc [2; 4; 6; 8]%Z |})
    as [Htorch Htf].
  split.
  - apply Htorch.
    + vm_compute. reflexivity.
    + discriminate.
    + discriminate.
    + reflexivity.
    + reflexivity.
    + reflexivity.
    + vm_compute. reflexivity.
    + split; reflexivity.
  - apply Htf.
    + vm_compute. reflexivity.
    + discriminate.
    + reflexivity.
    + reflexivity.
    + vm_compute. reflexivity.
    + split; reflexivity.
Defined.

Lemma torch_selects_own_label_witness :
  exists outs,
    torch_selected per_sample_scores (arange 2) (Some (YList [1; (-2)]%Z))
      {| shape := [2]; data := map qc [3; 4]%Z |} = Ok outs
    /\ length outs = 2
    /\ forall i k, nth_error [1; (-2)]%Z i = Some k ->
         exists o,
           nth_error (data (forward per_sample_scores
                              {| shape := [2]; data := map qc [3; 4]%Z |}))
                     (i * 2 + wrapped k 2) = Some o
           /\ nth_error outs i = Some {| shape := []; data := [o] |}.
Proof.
  apply (torch_selects_own_label per_sample_scores
           {| shape := [2]; data := map qc [3; 4]%Z |} 2 2 [1; (-2)]%Z).
  - reflexivity.
  - reflexivity.
  - reflexivity.
  - repeat constructor; simpl; lia.
Defined.

Lemma tf_selects_every_pair_witness :
  exists sel,
    tf_selected per_sample_scores (Some (YList [1; 0]%Z))
      {| shape := [2]; data := map qc [3; 4]%Z |} = Ok sel
    /\ shape sel = [2 * length [1; 0]%Z]
    /\ forall i j k, i < 2 -> nth_error [1; 0]%Z j = Some k ->
         nth_error (data sel) (i * length [1; 0]%Z + j)
         = nth_error (data (forward per_sample_scores
                              {| shape := [2]; data := map qc [3; 4]%Z |}))
                     (i * 2 + Z.to_nat k).
Proof.
  apply (tf_selects_every_pair per_sample_scores
           {| shape := [2]; data := map qc [3; 4]%Z |} 2 2 [1; 0]%Z).
  - reflexivity.
  - reflexivity.
  - repeat constructor; simpl; lia.
Defined.

(** Two samples with scores (3, 30) and (4, 40), labels 1 and 0: torch
    picks 30 and 4, one score per sample; tf picks 30, 3, 40, 4, every
    sample against every label. *)
Example selected_outputs_of_the_two_engines :
  (match torch_selected per_sample_scores (arange 2) (Some (YList [1; 0]%Z))
           {| shape := [2]; data := map qc [3; 4]%Z |} with
   | Ok outs => Some (map (fun o => map this (data o)) outs)
   | Err _ => None
   end,
   match tf_selected per_sample_scores (Some (YList [1; 0]%Z))
           {| shape := [2]; data := map qc [3; 4]%Z |} with
   | Ok sel => Some (shape sel, map this (data sel))
   | Err _ => None
   end)
  = (Some [[30]; [4]]%Q, Some ([4], [30; 3; 40; 4]%Q)).
Proof. vm_compute. reflexivity. Qed.
